(** * Adaptive selection of the speculative step count

    A shallow embedding of [sglang/srt/speculative/auto_tuner.py]
    (class [SpeculativeTuner]) and
    [sglang/srt/speculative/speculative_controller.py]
    (class [SpeculativeController]), with the properties their
    specification states.

    Conventions of the embedding.
    - A Python [int] is a [Z]; [//] is [Z.div] (both floor, the remainder
      takes the sign of the divisor).
    - A Python [float] is an element of a type [F] with the operations of
      the class [PyFloat]; nothing is assumed of their rounding.  The
      ordering laws that one property needs are the record [PyFloatLaws].
      [Q] with exact arithmetic and the kernel's binary64 floats are
      instances, used to run the code.  An int too large for a float and
      a [maxlen] too large for a deque (Python's [OverflowError]) are
      outside the embedding; [float_sized] and [ssize_sized] are the
      ranges inside it, for the properties that say when a call raises.
    - A [dict] is a [gmap]; a [collections.deque] with a [maxlen] is the
      record [deque].
    - A method takes the object and returns the object after the call,
      paired with what the call returns; a call that raises returns
      [Raise e], paired with the object as the exception leaves it.
    - A draw from the module [random] is an argument of the method that
      draws it. *)

From Stdlib Require Import ZArith QArith List Lia Bool Floats Uint63.
From stdpp Require Import base option list gmap.

Open Scope Z_scope.

(** ** Exceptions *)

Inductive exn : Type :=
  | ZeroDivisionError
  | ValueError
  | KeyError
  | IndexError.

Inductive Res (A : Type) : Type :=
  | Ok (a : A)
  | Raise (e : exn).
Arguments Ok {A} a.
Arguments Raise {A} e.

(** ** Floating-point numbers *)

Class PyFloat (F : Type) : Type := {
  (** the float nearest to an exact rational: a literal, [float(n)], and
      the true division [n / m] of two ints, which Python rounds once *)
  of_Q : Q -> F;
  fadd : F -> F -> F;
  fsub : F -> F -> F;
  (** [x / y] for [y] other than zero *)
  fdiv : F -> F -> F;
  (** the built-in [sum] over floats *)
  fsum : list F -> F;
  (** [x < y] and [x == y] *)
  flt : F -> F -> bool;
  feqb : F -> F -> bool
}.

Section float_ops.
Context {F : Type} `{PyFloat F}.

Definition of_Z (n : Z) : F := of_Q (inject_Z n).
Definition fgt (x y : F) : bool := flt y x.
Definition fle (x y : F) : bool := flt x y || feqb x y.
(** [n / m] on two ints, [m] other than zero and the quotient within the
    range of a float *)
Definition int_truediv (n m : Z) : F := of_Q (inject_Z n / inject_Z m).
End float_ops.

(** What the comparison is assumed to satisfy where a property depends on
    it, [nan] telling the values that are not numbers: [<] is irreflexive
    and transitive; a number that is neither above [x] nor below [z]
    keeps [x] from being below [z]; rounding is monotone and gives a
    number; an int divided by a positive float is a number; a positive
    float is not zero.  The floats of IEEE 754 satisfy these, [nan] being
    their NaN. *)
Record PyFloatLaws {F : Type} `{PyFloat F} {nan : F -> bool} : Prop := {
  flt_irrefl : forall x : F, flt x x = false;
  flt_trans : forall x y z : F, flt x y = true -> flt y z = true -> flt x z = true;
  flt_negtrans : forall x y z : F,
    nan y = false -> flt x y = false -> flt y z = false -> flt x z = false;
  of_Q_mono : forall p q : Q, (p <= q)%Q -> flt (of_Q q) (of_Q p) = false;
  of_Q_number : forall q : Q, nan (of_Q q) = false;
  fdiv_number : forall (n : Z) (x : F),
    flt (of_Z 0) x = true -> nan (fdiv (of_Z n) x) = false;
  fpos_nonzero : forall x : F, flt (of_Z 0) x = true -> feqb x (of_Z 0) = false
}.
Arguments PyFloatLaws F {_} nan.

(** Exact rational arithmetic. *)
Definition Qltb (x y : Q) : bool := (Qnum x * QDen y <? Qnum y * QDen x)%Z.

#[export] Instance Q_PyFloat : PyFloat Q := {
  of_Q := fun q => q;
  fadd := Qplus;
  fsub := Qminus;
  fdiv := Qdiv;
  fsum := fun l => fold_left Qplus l (inject_Z 0);
  flt := Qltb;
  feqb := Qeq_bool
}.

(** The binary64 floats of the kernel, for ints below [2^53] in absolute
    value: such an int converts exactly, and the division of two of them
    rounds once, as Python's true division does.  [sum] is the plain sum
    from left to right, as CPython computes it before version 3.12. *)
Definition float_of_Z (z : Z) : float :=
  match z with
  | Z0 => 0%float
  | Zpos _ => PrimFloat.of_uint63 (Uint63.of_Z z)
  | Zneg p => (- PrimFloat.of_uint63 (Uint63.of_Z (Zpos p)))%float
  end.

Definition float_of_Q (q : Q) : float :=
  (float_of_Z (Qnum q) / float_of_Z (Zpos (Qden q)))%float.

Definition binary64_PyFloat : PyFloat float := {|
  of_Q := float_of_Q;
  fadd := PrimFloat.add;
  fsub := PrimFloat.sub;
  fdiv := PrimFloat.div;
  fsum := fun l => fold_left PrimFloat.add l 0%float;
  flt := PrimFloat.ltb;
  feqb := PrimFloat.eqb
|}.

(** ** [collections.deque] with a [maxlen] *)

Record deque (A : Type) : Type := Deque { items : list A; maxlen : nat }.
Arguments Deque {A} items maxlen.
Arguments items {A} d.
Arguments maxlen {A} d.

(** [deque(maxlen=n)], for [n] from [-2^63] to below [2^63] *)
Definition deque_new {A : Type} (n : Z) : Res (deque A) :=
  if n <? 0 then Raise ValueError else Ok (Deque [] (Z.to_nat n)).

(** [d.append(x)]: the record is put at the right end, and the left end is
    dropped when the length passes [maxlen]. *)
Definition deque_append {A : Type} (d : deque A) (x : A) : deque A :=
  let l := items d ++ [x] in
  Deque (if (maxlen d <? length l)%nat then tail l else l) (maxlen d).

(** The last [n] elements of a list. *)
Definition lastn {A : Type} (n : nat) (l : list A) : list A :=
  drop (length l - n)%nat l.

(** [sum] over ints *)
Definition zsum (l : list Z) : Z := fold_left Z.add l 0.

(** [list(range(lo, hi))] *)
Definition py_range (lo hi : Z) : list Z :=
  map (fun i => lo + Z.of_nat i) (seq 0 (Z.to_nat (hi - lo))).

(** ** [auto_tuner.py] *)

Module Tuner.
Section tuner.
Context {F : Type} `{PyFloat F}.

Record SpeculativeTuner : Type := Build {
  max_step : Z;
  window_size : Z;
  target_acceptance_rate : F;
  (** batch_size -> current step suggestion *)
  bs_to_step : gmap Z Z;
  (** batch_size -> deque of (step, acceptance_rate) *)
  history : gmap Z (deque (Z * F))
}.

Definition set_bs_to_step (t : SpeculativeTuner) (m : gmap Z Z) : SpeculativeTuner :=
  Build (max_step t) (window_size t) (target_acceptance_rate t) m (history t).

Definition set_history (t : SpeculativeTuner) (h : gmap Z (deque (Z * F))) : SpeculativeTuner :=
  Build (max_step t) (window_size t) (target_acceptance_rate t) (bs_to_step t) h.

(** [__init__]; the defaults are [window_size=10] and
    [target_acceptance_rate=0.6] *)
Definition __init__ (max_step window_size : Z) (target_acceptance_rate : F) : SpeculativeTuner :=
  Build max_step window_size target_acceptance_rate ∅ ∅.

Definition init_default (max_step : Z) : SpeculativeTuner :=
  __init__ max_step 10 (of_Q (6 # 10)).

Definition get_step (t : SpeculativeTuner) (batch_size : Z) : SpeculativeTuner * Z :=
  match bs_to_step t !! batch_size with
  | None => (set_bs_to_step t (<[batch_size := max_step t]> (bs_to_step t)), max_step t)
  | Some s => (t, s)
  end.

Definition _adjust_step (t : SpeculativeTuner) (batch_size : Z) : SpeculativeTuner * Res unit :=
  let current_step := default (max_step t) (bs_to_step t !! batch_size) in
  match history t !! batch_size with
  | None => (t, Raise KeyError)
  | Some d =>
      let recent_records := filter (fun r => r.1 = current_step) (items d) in
      match recent_records with
      | [] => (t, Ok tt)
      | _ :: _ =>
          let avg_rate :=
            fdiv (fsum (map snd recent_records)) (of_Z (Z.of_nat (length recent_records))) in
          let new_step :=
            if fgt avg_rate (fadd (target_acceptance_rate t) (of_Q (1 # 10)))
            then Z.min (max_step t) (current_step + 1)
            else if flt avg_rate (fsub (target_acceptance_rate t) (of_Q (1 # 10)))
            then Z.max 1 (current_step - 1)
            else current_step in
          (set_bs_to_step t (<[batch_size := new_step]> (bs_to_step t)), Ok tt)
      end
  end.

Definition update (t : SpeculativeTuner) (batch_size step accepted_tokens drafted_tokens : Z)
  : SpeculativeTuner * Res unit :=
  if drafted_tokens =? 0 then (t, Ok tt)
  else
    let rate := int_truediv accepted_tokens drafted_tokens in
    match (match history t !! batch_size with
           | None => deque_new (window_size t)
           | Some d => Ok d
           end) with
    | Raise e => (t, Raise e)
    | Ok d =>
        _adjust_step
          (set_history t (<[batch_size := deque_append d (step, rate)]> (history t)))
          batch_size
    end.

(** The suggestion a [get_step] would return. *)
Definition suggestion (t : SpeculativeTuner) (batch_size : Z) : Z :=
  default (max_step t) (bs_to_step t !! batch_size).

(** The records a batch size's window holds, oldest first. *)
Definition window (t : SpeculativeTuner) (batch_size : Z) : list (Z * F) :=
  match history t !! batch_size with
  | None => []
  | Some d => items d
  end.

(** A call of the scheduler, and what it returns. *)
Inductive call : Type :=
  | GetStep (batch_size : Z)
  | Update (batch_size step accepted_tokens drafted_tokens : Z).

Inductive ret : Type :=
  | RStep (s : Z)
  | RUnit (r : Res unit).

Definition step (t : SpeculativeTuner) (c : call) : SpeculativeTuner * ret :=
  match c with
  | GetStep b => let '(t', s) := get_step t b in (t', RStep s)
  | Update b s a d => let '(t', r) := update t b s a d in (t', RUnit r)
  end.

(** The object after a sequence of calls, and what each returned. *)
Fixpoint run (t : SpeculativeTuner) (cs : list call) : SpeculativeTuner * list ret :=
  match cs with
  | [] => (t, [])
  | c :: cs' =>
      let '(t1, r) := step t c in
      let '(t2, rs) := run t1 cs' in
      (t2, r :: rs)
  end.

End tuner.
Arguments SpeculativeTuner F : clear implicits.
End Tuner.

(** ** [speculative_controller.py] *)

Module Controller.

(** The batch size rounded up to a multiple of [size], for [size] other
    than zero. *)
Definition bucket_of (size batch_size : Z) : Z :=
  (batch_size + size - 1) / size * size.

Section controller.
Context {F : Type} `{PyFloat F}.

Record SpeculativeController : Type := Build {
  max_steps : Z;
  step_candidates : list Z;
  (** (batch_size_bucket, num_steps) -> deque of (latency, num_accepted_tokens) *)
  history : gmap (Z * Z) (deque (F * Z));
  warmup_samples : Z;
  exploration_rate : F;
  bs_bucket_size : Z;
  (** bs_bucket -> num_steps *)
  last_decision : gmap Z Z
}.

Definition set_history (c : SpeculativeController) (h : gmap (Z * Z) (deque (F * Z)))
  : SpeculativeController :=
  Build (max_steps c) (step_candidates c) h (warmup_samples c) (exploration_rate c)
    (bs_bucket_size c) (last_decision c).

(** Assignments to [warmup_samples] and [exploration_rate] after
    construction. *)
Definition set_warmup_samples (c : SpeculativeController) (n : Z) : SpeculativeController :=
  Build (max_steps c) (step_candidates c) (history c) n (exploration_rate c)
    (bs_bucket_size c) (last_decision c).

Definition set_exploration_rate (c : SpeculativeController) (r : F) : SpeculativeController :=
  Build (max_steps c) (step_candidates c) (history c) (warmup_samples c) r
    (bs_bucket_size c) (last_decision c).

(** [__init__]; [tune_interval] (default 10) is accepted and not used *)
Definition __init__ (initial_steps tune_interval : Z) : SpeculativeController :=
  Build initial_steps (py_range 1 (initial_steps + 1)) ∅ 5 (of_Q (10 # 100)) 4 ∅.

(** [self.history[key]] on the [defaultdict]: a missing key is given a new
    [deque(maxlen=20)], which stays in the dict. *)
Definition history_get (h : gmap (Z * Z) (deque (F * Z))) (key : Z * Z)
  : deque (F * Z) * gmap (Z * Z) (deque (F * Z)) :=
  match h !! key with
  | Some d => (d, h)
  | None => (Deque [] 20, <[key := Deque [] 20]> h)
  end.

(** [(batch_size + self.bs_bucket_size - 1) // self.bs_bucket_size * self.bs_bucket_size] *)
Definition bucket (c : SpeculativeController) (batch_size : Z) : Res Z :=
  if bs_bucket_size c =? 0 then Raise ZeroDivisionError
  else Ok (bucket_of (bs_bucket_size c) batch_size).

(** The first loop of [get_num_steps]: the first candidate short of
    samples, if there is one. *)
Fixpoint warmup_loop (warmup bs_bucket : Z) (cands : list Z)
    (h : gmap (Z * Z) (deque (F * Z))) : gmap (Z * Z) (deque (F * Z)) * option Z :=
  match cands with
  | [] => (h, None)
  | step :: rest =>
      let '(d, h') := history_get h (bs_bucket, step) in
      if Z.of_nat (length (items d)) <? warmup then (h', Some step)
      else warmup_loop warmup bs_bucket rest h'
  end.

(** The second loop of [get_num_steps], from [best_step] and [max_tps]. *)
Fixpoint exploit_loop (bs_bucket : Z) (cands : list Z)
    (h : gmap (Z * Z) (deque (F * Z))) (best_step : Z) (max_tps : F)
  : gmap (Z * Z) (deque (F * Z)) * Z * F :=
  match cands with
  | [] => (h, best_step, max_tps)
  | step :: rest =>
      let '(samples, h') := history_get h (bs_bucket, step) in
      match items samples with
      | [] => exploit_loop bs_bucket rest h' best_step max_tps
      | _ :: _ =>
          let total_latency := fsum (map fst (items samples)) in
          let total_tokens := zsum (map snd (items samples)) in
          if fgt total_latency (of_Z 0) then
            let tps := fdiv (of_Z total_tokens) total_latency in
            if fgt tps max_tps then exploit_loop bs_bucket rest h' step tps
            else exploit_loop bs_bucket rest h' best_step max_tps
          else exploit_loop bs_bucket rest h' best_step max_tps
      end
  end.

(** [random.choice(l)], [pick] being the index it draws *)
Definition random_choice (l : list Z) (pick : nat) : Res Z :=
  match l !! (pick mod length l)%nat with
  | Some x => Ok x
  | None => Raise IndexError
  end.

(** [u] is what [random.random()] returns and [pick] what
    [random.choice] draws, should the call reach them. *)
Definition get_num_steps (c : SpeculativeController) (batch_size : Z) (u : F) (pick : nat)
  : SpeculativeController * Res Z :=
  match bucket c batch_size with
  | Raise e => (c, Raise e)
  | Ok bs_bucket =>
      let '(h1, short) := warmup_loop (warmup_samples c) bs_bucket (step_candidates c) (history c) in
      match short with
      | Some step => (set_history c h1, Ok step)
      | None =>
          if flt u (exploration_rate c) then
            (set_history c h1, random_choice (step_candidates c) pick)
          else
            let '(h2, best_step, max_tps) :=
              exploit_loop bs_bucket (step_candidates c) h1 1 (of_Q (-1)) in
            if fgt max_tps (of_Z 0) then (set_history c h2, Ok best_step)
            else (set_history c h2, Ok (max_steps c))
      end
  end.

Definition update (c : SpeculativeController) (batch_size : Z) (accept_lens : list Z)
    (latency : F) : SpeculativeController * Res unit :=
  if fle latency (of_Z 0) then (c, Ok tt)
  else
    match bucket c batch_size with
    | Raise e => (c, Raise e)
    | Ok bs_bucket => (c, Ok tt)
    end.

(** [u] is what [random.random()] returns; below 0.05 the log line is
    formatted, which divides by [latency]. *)
Definition update_with_step (c : SpeculativeController) (batch_size num_steps : Z)
    (accept_lens : list Z) (latency : F) (u : F) : SpeculativeController * Res unit :=
  match bucket c batch_size with
  | Raise e => (c, Raise e)
  | Ok bs_bucket =>
      let key := (bs_bucket, num_steps) in
      let total_accepted := zsum accept_lens in
      let '(d, h) := history_get (history c) key in
      let c' := set_history c (<[key := deque_append d (latency, total_accepted)]> h) in
      if flt u (of_Q (5 # 100)) then
        if feqb latency (of_Z 0) then (c', Raise ZeroDivisionError) else (c', Ok tt)
      else (c', Ok tt)
  end.

(** The records a key's window holds, oldest first. *)
Definition window_of (h : gmap (Z * Z) (deque (F * Z))) (key : Z * Z) : list (F * Z) :=
  match h !! key with
  | None => []
  | Some d => items d
  end.

Definition window (c : SpeculativeController) (key : Z * Z) : list (F * Z) :=
  window_of (history c) key.

(** The aggregate throughput of a window, where [get_num_steps] computes
    one: the window is not empty and its total latency is positive. *)
Definition throughput (w : list (F * Z)) : option F :=
  match w with
  | [] => None
  | _ :: _ =>
      let total_latency := fsum (map fst w) in
      if fgt total_latency (of_Z 0)
      then Some (fdiv (of_Z (zsum (map snd w))) total_latency)
      else None
  end.

Inductive call : Type :=
  | GetNumSteps (batch_size : Z) (u : F) (pick : nat)
  | UpdateNoStep (batch_size : Z) (accept_lens : list Z) (latency : F)
  | UpdateWithStep (batch_size num_steps : Z) (accept_lens : list Z) (latency : F) (u : F).

Inductive ret : Type :=
  | RStep (r : Res Z)
  | RUnit (r : Res unit).

Definition step (c : SpeculativeController) (k : call) : SpeculativeController * ret :=
  match k with
  | GetNumSteps b u pick => let '(c', r) := get_num_steps c b u pick in (c', RStep r)
  | UpdateNoStep b a l => let '(c', r) := update c b a l in (c', RUnit r)
  | UpdateWithStep b n a l u => let '(c', r) := update_with_step c b n a l u in (c', RUnit r)
  end.

Fixpoint run (c : SpeculativeController) (ks : list call) : SpeculativeController * list ret :=
  match ks with
  | [] => (c, [])
  | k :: ks' =>
      let '(c1, r) := step c k in
      let '(c2, rs) := run c1 ks' in
      (c2, r :: rs)
  end.

(** One round of the scheduler: decide, run the batch, report the
    outcome under the decided step. *)
Record round : Type := Round {
  r_batch_size : Z;
  r_u : F;
  r_pick : nat;
  r_accept_lens : list Z;
  r_latency : F;
  r_log_u : F
}.

(** The decisions of a sequence of rounds; [None] when a call raised. *)
Fixpoint decisions (c : SpeculativeController) (rs : list round) : option (list Z) :=
  match rs with
  | [] => Some []
  | r :: rs' =>
      match get_num_steps c (r_batch_size r) (r_u r) (r_pick r) with
      | (c1, Ok n) =>
          match update_with_step c1 (r_batch_size r) n (r_accept_lens r) (r_latency r) (r_log_u r) with
          | (c2, Ok _) =>
              match decisions c2 rs' with
              | Some ds => Some (n :: ds)
              | None => None
              end
          | (_, Raise _) => None
          end
      | (_, Raise _) => None
      end
  end.

End controller.
Arguments SpeculativeController F : clear implicits.
Arguments call F : clear implicits.
Arguments round F : clear implicits.
End Controller.

(** ** Definitions the properties are stated with *)

Section tuner_spec.
Context {F : Type} `{PyFloat F}.

(** The arithmetic mean of a list of rates. *)
Definition mean_rate (rates : list F) : F :=
  fdiv (fsum rates) (of_Z (Z.of_nat (length rates))).

(** The recomputation of a suggestion, in the specification's words:
    restrict the window to the records of the current step; none, no
    change; else the mean of their rates against the band around the
    target. *)
Definition recomputed (max_step : Z) (target : F) (current : Z) (w : list (Z * F)) : Z :=
  let matching := filter (fun r => r.1 = current) w in
  if bool_decide (matching = []) then current
  else
    let mean := mean_rate (map snd matching) in
    if fgt mean (fadd target (of_Q (1 # 10))) then Z.min max_step (current + 1)
    else if flt mean (fsub target (of_Q (1 # 10))) then Z.max 1 (current - 1)
    else current.

(** The window an [update] appends to: the one in place, or a new one. *)
Definition window_before (t : Tuner.SpeculativeTuner F) (b : Z) : deque (Z * F) :=
  match Tuner.history t !! b with
  | Some d => d
  | None => Deque [] (Z.to_nat (Tuner.window_size t))
  end.

(** No call of the sequence is a [get_step] of [batch_size]. *)
Definition no_get_step_for (batch_size : Z) (cs : list Tuner.call) : Prop :=
  Forall (fun c => c <> Tuner.GetStep batch_size) cs.

(** Every stored suggestion lies in [1, max_step]. *)
Definition suggestions_in_range (t : Tuner.SpeculativeTuner F) : Prop :=
  forall b, 1 <= Tuner.suggestion t b <= Tuner.max_step t.

(** The window of a batch size holds the last [window_size] records of
    [arr], in a deque of that capacity. *)
Definition holds_last (t : Tuner.SpeculativeTuner F) (b : Z) (arr : list (Z * F)) : Prop :=
  match Tuner.history t !! b with
  | Some d =>
      maxlen d = Z.to_nat (Tuner.window_size t) /\
      items d = lastn (Z.to_nat (Tuner.window_size t)) arr
  | None => arr = []
  end.

(** The record an [update] stores, if it stores one under [batch_size]. *)
Definition tuner_arrival (batch_size : Z) (c : Tuner.call) : list (Z * F) :=
  match c with
  | Tuner.GetStep _ => []
  | Tuner.Update b s a d =>
      if bool_decide (b = batch_size) && negb (d =? 0) then [(s, int_truediv a d)] else []
  end.

(** The records a sequence of calls stores under [batch_size], in order. *)
Definition tuner_arrivals (batch_size : Z) (cs : list Tuner.call) : list (Z * F) :=
  flat_map (tuner_arrival batch_size) cs.

(** No call of the sequence is an [update] that stores a record under
    [batch_size]. *)
Definition no_update_for (batch_size : Z) (cs : list Tuner.call) : Prop :=
  tuner_arrivals batch_size cs = [].
End tuner_spec.

Section controller_spec.
Context {F : Type} `{PyFloat F}.

(** The record an [update_with_step] stores, if it stores one under
    [key], for a bucket size of 4. *)
Definition controller_arrival (key : Z * Z) (k : Controller.call F) : list (F * Z) :=
  match k with
  | Controller.UpdateWithStep b n a l _ =>
      if bool_decide ((Controller.bucket_of 4 b, n) = key) then [(l, zsum a)] else []
  | _ => []
  end.

Definition controller_arrivals (key : Z * Z) (ks : list (Controller.call F)) : list (F * Z) :=
  flat_map (controller_arrival key) ks.

(** Two histories hold the same records: they differ by empty windows. *)
Definition same_windows (h h' : gmap (Z * Z) (deque (F * Z))) : Prop :=
  forall key, Controller.window_of h' key = Controller.window_of h key.

(** A candidate of the bucket is short of samples. *)
Definition short (warmup bs_bucket : Z) (h : gmap (Z * Z) (deque (F * Z))) (s : Z) : bool :=
  Z.of_nat (length (Controller.window_of h (bs_bucket, s))) <? warmup.

(** The throughputs of the candidates of a bucket. *)
Definition tps_in (h : gmap (Z * Z) (deque (F * Z))) (bs_bucket s : Z) : option F :=
  Controller.throughput (Controller.window_of h (bs_bucket, s)).

(** The second loop of [get_num_steps] over the throughputs [tp] of the
    candidates. *)
Fixpoint best_from (tp : Z -> option F) (cands : list Z) (best_step : Z) (max_tps : F)
  : Z * F :=
  match cands with
  | [] => (best_step, max_tps)
  | s :: rest =>
      match tp s with
      | Some t =>
          if fgt t max_tps then best_from tp rest s t
          else best_from tp rest best_step max_tps
      | None => best_from tp rest best_step max_tps
      end
  end.

(** Every deque of the history has capacity 20, and the window of [key]
    holds the last 20 records of [arr]. *)
Definition capacity_20 (h : gmap (Z * Z) (deque (F * Z))) : Prop :=
  forall key d, h !! key = Some d -> maxlen d = 20%nat.

Definition holds_last_20 (h : gmap (Z * Z) (deque (F * Z))) (key : Z * Z)
    (arr : list (F * Z)) : Prop :=
  Controller.window_of h key = lastn 20 arr.

(** The settings of a controller built by [__init__] for [n] steps; the
    bucket size is not zero. *)
Definition configured (c : Controller.SpeculativeController F) (n : Z) : Prop :=
  Controller.max_steps c = n /\
  Controller.step_candidates c = py_range 1 (n + 1) /\
  Controller.bs_bucket_size c <> 0.

(** The deque an [update_with_step] appends to: the one in place, or a
    new one. *)
Definition deque_before (c : Controller.SpeculativeController F) (key : Z * Z)
  : deque (F * Z) :=
  match Controller.history c !! key with
  | Some d => d
  | None => Deque [] 20
  end.

(** Candidates 1, 2, 3 under a warmup of two samples, with [l1], [l2],
    [l3] records in their windows of the bucket. *)
Definition warming (c : Controller.SpeculativeController F) (bs_bucket : Z)
    (l1 l2 l3 : nat) : Prop :=
  Controller.step_candidates c = [1; 2; 3] /\
  Controller.warmup_samples c = 2 /\
  Controller.bs_bucket_size c = 4 /\
  capacity_20 (Controller.history c) /\
  length (Controller.window c (bs_bucket, 1)) = l1 /\
  length (Controller.window c (bs_bucket, 2)) = l2 /\
  length (Controller.window c (bs_bucket, 3)) = l3.

(** Every candidate's window of the bucket holds [warmup_samples]
    records or more. *)
Definition warmed_up (c : Controller.SpeculativeController F) (bs_bucket : Z) : Prop :=
  forall s, s ∈ Controller.step_candidates c ->
    Controller.warmup_samples c <= Z.of_nat (length (Controller.window c (bs_bucket, s))).

(** The throughput of a candidate of a bucket. *)
Definition tps_of (c : Controller.SpeculativeController F) (bs_bucket s : Z) : option F :=
  tps_in (Controller.history c) bs_bucket s.

(** What [get_num_steps] returns for a bucket, read off the windows. *)
Definition decision (c : Controller.SpeculativeController F) (bs_bucket : Z) (u : F)
    (pick : nat) : Res Z :=
  match find (short (Controller.warmup_samples c) bs_bucket (Controller.history c))
          (Controller.step_candidates c) with
  | Some s => Ok s
  | None =>
      if flt u (Controller.exploration_rate c) then
        Controller.random_choice (Controller.step_candidates c) pick
      else
        let '(best_step, max_tps) :=
          best_from (tps_of c bs_bucket) (Controller.step_candidates c) 1 (of_Q (-1)) in
        if fgt max_tps (of_Z 0) then Ok best_step else Ok (Controller.max_steps c)
  end.

(** Candidate number [i] is the best of the bucket: its throughput is
    positive, no candidate's is greater, and every earlier candidate's is
    smaller. *)
Definition best_candidate (c : Controller.SpeculativeController F) (bs_bucket : Z)
    (i : nat) (s : Z) : Prop :=
  Controller.step_candidates c !! i = Some s /\
  exists t, tps_of c bs_bucket s = Some t /\ fgt t (of_Z 0) = true /\
    forall j s' t', Controller.step_candidates c !! j = Some s' ->
      tps_of c bs_bucket s' = Some t' ->
      fgt t' t = false /\ ((j < i)%nat -> flt t' t = true).

(** Some candidate of the bucket has a positive throughput. *)
Definition some_positive (c : Controller.SpeculativeController F) (bs_bucket : Z) : Prop :=
  exists s t, s ∈ Controller.step_candidates c /\
    tps_of c bs_bucket s = Some t /\ fgt t (of_Z 0) = true.
End controller_spec.

(** ** Definitions the further properties are stated with *)

(** An int of a size that converts to a float, that a true division by an
    int other than zero accepts, and that prints: below [2^1023] in
    absolute value.  Beyond the range of a float Python raises
    [OverflowError]. *)
Definition float_sized (n : Z) : Prop := Z.abs n < 2 ^ 1023.

(** A [maxlen] of a size that [deque] reads, the range of a C [ssize_t];
    below [-2^63] and from [2^63] on Python raises [OverflowError]. *)
Definition ssize_sized (n : Z) : Prop := - 2 ^ 63 <= n < 2 ^ 63.

Section tuner_rounds.
Context {F : Type} `{PyFloat F}.

(** [n] rounds of the scheduler on one batch size: ask for the step, run
    the batch, report [accepted] of [drafted] tokens under that step. *)
Fixpoint report_rounds (t : Tuner.SpeculativeTuner F) (b accepted drafted : Z) (n : nat)
  : Tuner.SpeculativeTuner F :=
  match n with
  | O => t
  | S n' =>
      let '(t1, s) := Tuner.get_step t b in
      let '(t2, _) := Tuner.update t1 b s accepted drafted in
      report_rounds t2 b accepted drafted n'
  end.

(** The window of [b] takes a record and holds no more than its capacity,
    every record in it has the rate [r], and the suggestion of [b] lies in
    [1, max_step]. *)
Definition steady (t : Tuner.SpeculativeTuner F) (b : Z) (r : F) : Prop :=
  0 <= Tuner.window_size t /\
  (1 <= maxlen (window_before t b))%nat /\
  (length (items (window_before t b)) <= maxlen (window_before t b))%nat /\
  Forall (fun rec : Z * F => rec.2 = r) (items (window_before t b)) /\
  1 <= Tuner.suggestion t b <= Tuner.max_step t.

(** The mean of [k] copies of the rate [r], for every [k] from 1 to [cap],
    is above the band around the target, below it, or within it. *)
Definition means_above (target r : F) (cap : nat) : Prop :=
  forall k, (1 <= k <= cap)%nat ->
    fgt (mean_rate (repeat r k)) (fadd target (of_Q (1 # 10))) = true.

Definition means_below (target r : F) (cap : nat) : Prop :=
  forall k, (1 <= k <= cap)%nat ->
    fgt (mean_rate (repeat r k)) (fadd target (of_Q (1 # 10))) = false /\
    flt (mean_rate (repeat r k)) (fsub target (of_Q (1 # 10))) = true.

Definition means_within (target r : F) (cap : nat) : Prop :=
  forall k, (1 <= k <= cap)%nat ->
    fgt (mean_rate (repeat r k)) (fadd target (of_Q (1 # 10))) = false /\
    flt (mean_rate (repeat r k)) (fsub target (of_Q (1 # 10))) = false.


(** Two tuners have the same settings and hold the same suggestion and
    the same window for the batch size [b]. *)
Definition agree_on (b : Z) (t t' : Tuner.SpeculativeTuner F) : Prop :=
  Tuner.max_step t = Tuner.max_step t' /\
  Tuner.window_size t = Tuner.window_size t' /\
  Tuner.target_acceptance_rate t = Tuner.target_acceptance_rate t' /\
  Tuner.bs_to_step t !! b = Tuner.bs_to_step t' !! b /\
  Tuner.history t !! b = Tuner.history t' !! b.

(** The batch size a call is about, and the calls of a sequence that are
    about [b]. *)
Definition call_batch_size (c : Tuner.call) : Z :=
  match c with
  | Tuner.GetStep b => b
  | Tuner.Update b _ _ _ => b
  end.

Definition calls_for (b : Z) (cs : list Tuner.call) : list Tuner.call :=
  filter (fun c => call_batch_size c = b) cs.
End tuner_rounds.

Section controller_rounds_spec.
Context {F : Type} `{PyFloat F}.

(** Candidates 1 to [n] under a warmup of [W] samples: in the bucket the
    candidates up to [q] hold [W] records, candidate [q + 1] holds [r],
    the later ones none. *)
Definition warm_at (c : Controller.SpeculativeController F) (bs_bucket n : Z) (W : nat)
    (q : Z) (r : nat) : Prop :=
  Controller.step_candidates c = py_range 1 (n + 1) /\
  Controller.warmup_samples c = Z.of_nat W /\
  Controller.bs_bucket_size c = 4 /\
  capacity_20 (Controller.history c) /\
  (forall s, 1 <= s <= q -> length (Controller.window c (bs_bucket, s)) = W) /\
  length (Controller.window c (bs_bucket, q + 1)) = r /\
  (forall s, q + 1 < s -> length (Controller.window c (bs_bucket, s)) = 0%nat).

(** Every candidate from [lo] to [n], [W] times each, in candidate order. *)
Definition warmup_order (lo n : Z) (W : nat) : list Z :=
  flat_map (fun s => repeat s W) (py_range lo (n + 1)).

(** The calls of a sequence that report an outcome for the bucket, for a
    bucket size of 4. *)
Definition is_report_of (bs_bucket : Z) (k : Controller.call F) : bool :=
  match k with
  | Controller.UpdateWithStep b _ _ _ _ => bool_decide (Controller.bucket_of 4 b = bs_bucket)
  | _ => false
  end.

Definition reports_of (bs_bucket : Z) (ks : list (Controller.call F))
  : list (Controller.call F) :=
  filter (fun k => is_report_of bs_bucket k = true) ks.

(** A round is on the bucket and reports a positive latency. *)
Definition good_round (bs_bucket : Z) (r : Controller.round F) : Prop :=
  Controller.bucket_of 4 (Controller.r_batch_size r) = bs_bucket /\
  flt (of_Z 0) (Controller.r_latency r) = true.
End controller_rounds_spec.

(** ** Inputs the code is run on *)

Module Inputs.
(** [SpeculativeTuner(5)] *)
Definition tuner_5 : Tuner.SpeculativeTuner Q := Tuner.init_default 5.

(** Five reports for each of the candidates 1, 2, 3 of bucket 8, of one
    second each, with 30, 50 and 40 tokens. *)
Definition warm_calls : list (Controller.call Q) :=
  flat_map (fun st : Z * Z =>
    repeat (Controller.UpdateWithStep 8 st.1 [st.2] 1%Q 1%Q) 5)
    [(1, 30); (2, 50); (3, 40)].

(** [SpeculativeController(3)] after these reports, exploration disabled. *)
Definition warm_controller : Controller.SpeculativeController Q :=
  Controller.set_exploration_rate
    (Controller.run (Controller.__init__ 3 10) warm_calls).1 0%Q.

(** [SpeculativeController(3)] after these reports, as constructed. *)
Definition reported_controller : Controller.SpeculativeController Q :=
  (Controller.run (Controller.__init__ 3 10) warm_calls).1.

(** Six rounds on batch sizes of bucket 8. *)
Definition six_rounds_8 : list (Controller.round Q) :=
  map (fun b => Controller.Round b (1 # 2)%Q 0%nat [1; 2] (3 # 100)%Q (1 # 100)%Q)
    [5; 6; 7; 8; 8; 5].

(** [SpeculativeTuner(5, window_size=3)] in binary64 arithmetic. *)
Definition tuner_binary64 : Tuner.SpeculativeTuner float :=
  @Tuner.__init__ float 5 3 (float_of_Q (6 # 10)).

(** [SpeculativeTuner(5, window_size=1)] after two reports of no accepted
    token and one of nine in ten: the suggestion is 4 and the window holds
    the last report. *)
Definition recovering_tuner : Tuner.SpeculativeTuner Q :=
  (Tuner.run (Tuner.__init__ 5 1 (6 # 10)%Q)
     [Tuner.Update 8 5 0 10; Tuner.Update 8 4 0 10; Tuner.Update 8 3 9 10]).1.

(** [SpeculativeTuner(5, window_size=1)] after a report of no accepted
    token and one of seven in ten under a step that is not the suggested
    one: the suggestion is 4 and the window holds the last report. *)
Definition holding_tuner : Tuner.SpeculativeTuner Q :=
  (Tuner.run (Tuner.__init__ 5 1 (6 # 10)%Q)
     [Tuner.Update 8 5 0 10; Tuner.Update 8 3 7 10]).1.

(** Ten rounds on batch sizes of bucket 4. *)
Definition ten_rounds_4 : list (Controller.round Q) :=
  map (fun b => Controller.Round b (0 # 1)%Q 1%nat [2] (1 # 50)%Q (0 # 1)%Q)
    [1; 2; 3; 4; 4; 3; 2; 1; 1; 2].

(** Three reports under batch size 1. *)
Definition three_updates : list Tuner.call :=
  [Tuner.Update 1 5 9 10; Tuner.GetStep 1; Tuner.Update 1 5 8 10; Tuner.Update 1 5 1 10].
End Inputs.

(** ** Lists and deques *)

Section deque_facts.
Context {A : Type}.
Implicit Types (d : deque A) (l : list A) (x : A).

Lemma lastn_nil n : lastn n (@nil A) = [].
Proof. unfold lastn. by rewrite drop_nil. Qed.

Lemma length_lastn n l : length (lastn n l) = Nat.min n (length l).
Proof. unfold lastn. rewrite length_drop. lia. Qed.

Lemma deque_append_maxlen d x : maxlen (deque_append d x) = maxlen d.
Proof. reflexivity. Qed.

(** Appending to a window that holds the last [maxlen] records of [l]
    gives the last [maxlen] records of [l ++ [x]]. *)
Lemma deque_append_lastn d l x :
  items d = lastn (maxlen d) l ->
  items (deque_append d x) = lastn (maxlen d) (l ++ [x]).
Proof.
  intros Hd. unfold deque_append. cbn [items].
  rewrite Hd, length_app, length_lastn. cbn [length].
  unfold lastn. rewrite length_app. cbn [length].
  destruct (Nat.ltb_spec (maxlen d) (Nat.min (maxlen d) (length l) + 1)) as [Hlt | Hge].
  - assert (Hm : (maxlen d <= length l)%nat) by lia.
    replace (length l + 1 - maxlen d)%nat with (S (length l - maxlen d)) by lia.
    rewrite <- (drop_app_le l [x]) by lia.
    generalize (l ++ [x]) (length l - maxlen d)%nat. clear.
    intros k n. revert k. induction n as [|n IH]; intros [|y k]; cbn; auto.
  - replace (length l + 1 - maxlen d)%nat with 0%nat by lia.
    by replace (length l - maxlen d)%nat with 0%nat by lia.
Qed.

End deque_facts.

Lemma find_pointwise {A : Type} (f g : A -> bool) (l : list A) :
  (forall x, f x = g x) -> find f l = find g l.
Proof. intros Hfg. induction l as [|x l IH]; cbn; [done|]. by rewrite Hfg, IH. Qed.

(** [find] returns the first element that passes the test. *)
Lemma find_first {A : Type} (f : A -> bool) (l : list A) :
  match find f l with
  | Some x => exists i, l !! i = Some x /\ f x = true /\
                forall j y, (j < i)%nat -> l !! j = Some y -> f y = false
  | None => forall x, x ∈ l -> f x = false
  end.
Proof.
  induction l as [|a l IH]; cbn.
  - intros x Hx. by apply elem_of_nil in Hx.
  - destruct (f a) eqn:Ea.
    + exists 0%nat. repeat split; [done|]. intros j y Hj. lia.
    + destruct (find f l) as [x|].
      * destruct IH as (i & Hi & Hx & Hbefore). exists (S i). repeat split; try done.
        intros [|j] y Hj; cbn; [by intros [= <-]|]. apply Hbefore. lia.
      * intros x [-> | Hx]%elem_of_cons; auto.
Qed.

Lemma elem_of_py_range lo hi x : x ∈ py_range lo hi <-> lo <= x < hi.
Proof.
  unfold py_range. rewrite list_elem_of_In, in_map_iff. split.
  - intros (i & <- & Hi). apply in_seq in Hi. lia.
  - intros Hx. exists (Z.to_nat (x - lo)). split; [lia|]. apply in_seq. lia.
Qed.

(** ** The threshold tuner *)

Section tuner_facts.
Context {F : Type} `{PyFloat F}.
Implicit Types (t : Tuner.SpeculativeTuner F) (b : Z).

(** A property every call preserves holds after every sequence of calls. *)
Lemma run_tuner_preserves (P : Tuner.SpeculativeTuner F -> Prop) :
  (forall t c, P t -> P (Tuner.step t c).1) ->
  forall cs t, P t -> P (Tuner.run t cs).1.
Proof.
  intros Hstep cs. induction cs as [|c cs IH]; intros t Ht; cbn; [done|].
  specialize (Hstep t c Ht). destruct (Tuner.step t c) as [t1 r].
  specialize (IH t1 Hstep). by destruct (Tuner.run t1 cs).
Qed.

(** [_adjust_step] writes [bs_to_step] only, and under [batch_size] only. *)
Lemma adjust_step_frame t b :
  let t' := (Tuner._adjust_step t b).1 in
  Tuner.history t' = Tuner.history t /\
  Tuner.max_step t' = Tuner.max_step t /\
  Tuner.window_size t' = Tuner.window_size t /\
  Tuner.target_acceptance_rate t' = Tuner.target_acceptance_rate t /\
  forall b', b' <> b -> Tuner.bs_to_step t' !! b' = Tuner.bs_to_step t !! b'.
Proof.
  unfold Tuner._adjust_step. destruct (Tuner.history t !! b) as [d|]; cbn; [|done].
  destruct (filter _ (items d)); cbn; [done|].
  repeat split. intros b' Hb. by rewrite lookup_insert_ne.
Qed.

(** With the window in place, [_adjust_step] returns and leaves the
    suggestion the recomputation gives. *)
Lemma adjust_step_recomputed t b d :
  Tuner.history t !! b = Some d ->
  (Tuner._adjust_step t b).2 = Ok tt /\
  Tuner.suggestion (Tuner._adjust_step t b).1 b =
    recomputed (Tuner.max_step t) (Tuner.target_acceptance_rate t)
      (Tuner.suggestion t b) (items d) /\
  (filter (fun r => r.1 = Tuner.suggestion t b) (items d) = [] ->
   Tuner.bs_to_step (Tuner._adjust_step t b).1 = Tuner.bs_to_step t).
Proof.
  intros Hd. unfold Tuner._adjust_step, recomputed, mean_rate, Tuner.suggestion.
  rewrite Hd.
  destruct (filter _ (items d)) as [|r rs] eqn:E.
  - done.
  - rewrite bool_decide_eq_false_2 by done.
    unfold Tuner.set_bs_to_step. cbn [fst snd Tuner.max_step Tuner.bs_to_step].
    split; [done|]. split; [|done]. by rewrite lookup_insert_eq, length_map.
Qed.

Lemma update_unfold t b s a d :
  d <> 0 -> 0 <= Tuner.window_size t ->
  Tuner.update t b s a d =
  Tuner._adjust_step
    (Tuner.set_history t
       (<[b := deque_append (window_before t b) (s, int_truediv a d)]> (Tuner.history t))) b.
Proof.
  intros Hd Hw. unfold Tuner.update, window_before, deque_new.
  destruct (Z.eqb_spec d 0) as [|_]; [done|].
  destruct (Tuner.history t !! b); [done|].
  by destruct (Z.ltb_spec (Tuner.window_size t) 0) as [|_]; [lia|].
Qed.

(** The configuration is never written. *)
Lemma step_tuner_config t c :
  Tuner.max_step (Tuner.step t c).1 = Tuner.max_step t /\
  Tuner.window_size (Tuner.step t c).1 = Tuner.window_size t /\
  Tuner.target_acceptance_rate (Tuner.step t c).1 = Tuner.target_acceptance_rate t.
Proof.
  destruct c as [b | b s a d]; cbn.
  - unfold Tuner.get_step. by destruct (Tuner.bs_to_step t !! b).
  - destruct (Tuner.update t b s a d) as [t' r] eqn:E. cbn.
    unfold Tuner.update in E. destruct (d =? 0); [by inversion E|].
    destruct (match Tuner.history t !! b with
              | Some d0 => Ok d0 | None => deque_new (Tuner.window_size t) end) as [d0|e];
      [|by inversion E].
    pose proof (adjust_step_frame
      (Tuner.set_history t (<[b := deque_append d0 (s, int_truediv a d)]> (Tuner.history t))) b)
      as Hf.
    rewrite E in Hf. cbn in Hf. tauto.
Qed.

Lemma run_tuner_config t cs :
  Tuner.max_step (Tuner.run t cs).1 = Tuner.max_step t /\
  Tuner.window_size (Tuner.run t cs).1 = Tuner.window_size t /\
  Tuner.target_acceptance_rate (Tuner.run t cs).1 = Tuner.target_acceptance_rate t.
Proof.
  apply (run_tuner_preserves (fun t' =>
    Tuner.max_step t' = Tuner.max_step t /\
    Tuner.window_size t' = Tuner.window_size t /\
    Tuner.target_acceptance_rate t' = Tuner.target_acceptance_rate t)); [|done].
  intros t1 c (H1 & H2 & H3). destruct (step_tuner_config t1 c) as (G1 & G2 & G3).
  repeat split; congruence.
Qed.
End tuner_facts.

Section tuner_update.
Context {F : Type} `{PyFloat F}.
Implicit Types (t : Tuner.SpeculativeTuner F) (b : Z).

Lemma update_window t b s a d :
  d <> 0 -> 0 <= Tuner.window_size t ->
  Tuner.history (Tuner.update t b s a d).1 =
  <[b := deque_append (window_before t b) (s, int_truediv a d)]> (Tuner.history t).
Proof.
  intros Hd Hw. rewrite update_unfold by done.
  by destruct (adjust_step_frame
    (Tuner.set_history t
       (<[b := deque_append (window_before t b) (s, int_truediv a d)]> (Tuner.history t))) b)
    as (-> & _).
Qed.

(** What an [update] that stores a record does to the suggestions. *)
Lemma update_suggestion t b s a d :
  d <> 0 ->
  let t' := (Tuner.update t b s a d).1 in
  let matching := filter (fun r => r.1 = Tuner.suggestion t b) (Tuner.window t' b) in
  let mean := mean_rate (map snd matching) in
  Tuner.suggestion t' b =
    recomputed (Tuner.max_step t) (Tuner.target_acceptance_rate t)
      (Tuner.suggestion t b) (Tuner.window t' b) /\
  (matching = [] -> Tuner.bs_to_step t' = Tuner.bs_to_step t) /\
  (fgt mean (fadd (Tuner.target_acceptance_rate t) (of_Q (1 # 10))) = false ->
   flt mean (fsub (Tuner.target_acceptance_rate t) (of_Q (1 # 10))) = false ->
   Tuner.suggestion t' b = Tuner.suggestion t b) /\
  (forall b', b' <> b -> Tuner.suggestion t' b' = Tuner.suggestion t b') /\
  (0 <= Tuner.window_size t ->
   (Tuner.update t b s a d).2 = Ok tt /\
   Tuner.window t' b = items (deque_append (window_before t b) (s, int_truediv a d))).
Proof.
  intros Hd t' matching mean.
  assert (Hcases :
    (t' = t /\ Tuner.window t b = [] /\ Tuner.window_size t < 0) \/
    (exists d0 t1, Tuner.history t1 !! b = Some d0 /\
       Tuner.update t b s a d = Tuner._adjust_step t1 b /\
       Tuner.bs_to_step t1 = Tuner.bs_to_step t /\
       Tuner.max_step t1 = Tuner.max_step t /\
       Tuner.target_acceptance_rate t1 = Tuner.target_acceptance_rate t /\
       (0 <= Tuner.window_size t ->
        d0 = deque_append (window_before t b) (s, int_truediv a d)))).
  { subst t'. unfold Tuner.update, Tuner.window, window_before, deque_new.
    destruct (Z.eqb_spec d 0) as [|_]; [done|].
    destruct (Tuner.history t !! b) as [d0|] eqn:Hb.
    - right. eexists _, _. split; [|split; [reflexivity|]].
      + cbn. apply lookup_insert_eq.
      + by cbn.
    - destruct (Z.ltb_spec (Tuner.window_size t) 0) as [Hneg|Hpos].
      + by left.
      + right. eexists _, _. split; [|split; [reflexivity|]].
        * cbn. apply lookup_insert_eq.
        * by cbn. }
  destruct Hcases as [(Ht & Hw & Hneg) | (d0 & t1 & Hd0 & Hu & Hbs & Hm & Htg & Hd0')].
  - subst matching mean. rewrite Ht, Hw. unfold recomputed. cbn [filter list_filter].
    rewrite bool_decide_eq_true_2 by done.
    split; [done|]. split; [done|]. split; [done|]. split; [done|]. lia.
  - destruct (adjust_step_recomputed t1 b d0 Hd0) as (Hok & Hsug & Hnone).
    destruct (adjust_step_frame t1 b) as (Hh & _ & _ & _ & Hother).
    cbn zeta in Hh, Hother.
    assert (Hw : Tuner.window t' b = items d0).
    { subst t'. rewrite Hu. unfold Tuner.window. by rewrite Hh, Hd0. }
    assert (Hcur : Tuner.suggestion t1 b = Tuner.suggestion t b).
    { unfold Tuner.suggestion. by rewrite Hbs, Hm. }
    assert (Hrec : Tuner.suggestion t' b =
      recomputed (Tuner.max_step t) (Tuner.target_acceptance_rate t)
        (Tuner.suggestion t b) (Tuner.window t' b)).
    { subst t'. rewrite Hw, Hu, Hsug. by rewrite Hm, Htg, Hcur. }
    split; [done|]. split; [|split; [|split]].
    + subst matching t'. rewrite Hw, Hu, <- Hbs, <- Hcur. apply Hnone.
    + intros Hhi Hlo. rewrite Hrec. unfold recomputed.
      fold matching. fold mean. rewrite Hhi, Hlo. by case_bool_decide.
    + intros b' Hb'. subst t'. rewrite Hu. unfold Tuner.suggestion.
      destruct (adjust_step_frame t1 b) as (_ & -> & _ & _ & _).
      by rewrite Hother, Hbs, Hm.
    + intros Hws. subst t'. rewrite Hu, Hok. split; [done|].
      rewrite Hu in Hw. by rewrite Hw, Hd0'.
Qed.

Lemma update_drafted_zero t b s a :
  Tuner.update t b s a 0 = (t, Ok tt).
Proof. reflexivity. Qed.
End tuner_update.

Section tuner_traces.
Context {F : Type} `{PyFloat F}.
Implicit Types (t : Tuner.SpeculativeTuner F) (b : Z).

Lemma get_step_returns_suggestion t b :
  (Tuner.get_step t b).2 = Tuner.suggestion t b.
Proof.
  unfold Tuner.get_step, Tuner.suggestion.
  by destruct (Tuner.bs_to_step t !! b).
Qed.

(** [get_step] changes no suggestion, no window and no setting. *)
Lemma get_step_frame t b :
  (forall b', Tuner.suggestion (Tuner.get_step t b).1 b' = Tuner.suggestion t b') /\
  Tuner.history (Tuner.get_step t b).1 = Tuner.history t /\
  Tuner.max_step (Tuner.get_step t b).1 = Tuner.max_step t /\
  Tuner.window_size (Tuner.get_step t b).1 = Tuner.window_size t.
Proof.
  unfold Tuner.get_step, Tuner.suggestion.
  destruct (Tuner.bs_to_step t !! b) eqn:E; cbn; [done|].
  split; [|done]. intros b'. destruct (decide (b = b')) as [<-|Hne].
  - by rewrite lookup_insert_eq, E.
  - by rewrite lookup_insert_ne.
Qed.

Lemma get_step_twice t b :
  Tuner.get_step (Tuner.get_step t b).1 b =
  ((Tuner.get_step t b).1, (Tuner.get_step t b).2).
Proof.
  unfold Tuner.get_step. destruct (Tuner.bs_to_step t !! b) eqn:E; cbn.
  - by rewrite E.
  - by rewrite lookup_insert_eq.
Qed.

Lemma tuner_arrivals_cons b c cs :
  tuner_arrivals b (c :: cs) = tuner_arrival b c ++ tuner_arrivals b cs.
Proof. reflexivity. Qed.

Lemma tuner_arrivals_app b cs1 cs2 :
  tuner_arrivals b (cs1 ++ cs2) = tuner_arrivals b cs1 ++ tuner_arrivals b cs2.
Proof. unfold tuner_arrivals. apply flat_map_app. Qed.

Lemma tuner_arrival_hit b s a d :
  d <> 0 -> tuner_arrival b (Tuner.Update b s a d) = [(s, int_truediv a d)].
Proof.
  intros Hd. cbn. rewrite bool_decide_eq_true_2 by done.
  by destruct (Z.eqb_spec d 0).
Qed.

Lemma tuner_arrival_miss b b' s a d :
  b' <> b \/ d = 0 -> tuner_arrival b (Tuner.Update b' s a d) = [].
Proof.
  intros [Hb | ->]; cbn.
  - by rewrite bool_decide_eq_false_2.
  - by rewrite andb_false_r.
Qed.

(** A call that stores no record under [b] leaves the suggestion of [b]. *)
Lemma step_keeps_suggestion t b c :
  tuner_arrival b c = [] ->
  Tuner.suggestion (Tuner.step t c).1 b = Tuner.suggestion t b.
Proof.
  destruct c as [b' | b' s a d]; intros Harr; cbn [Tuner.step].
  - destruct (Tuner.get_step t b') as [t' r] eqn:E. cbn.
    destruct (get_step_frame t b') as (Hs & _). specialize (Hs b).
    by rewrite E in Hs.
  - destruct (Tuner.update t b' s a d) as [t' r] eqn:E. cbn.
    destruct (Z.eq_dec d 0) as [Hz | Hd]; [subst d|].
    + rewrite update_drafted_zero in E. by inversion E.
    + destruct (decide (b' = b)) as [-> | Hne].
      * by rewrite tuner_arrival_hit in Harr.
      * destruct (update_suggestion t b' s a d Hd) as (_ & _ & _ & Ho & _).
        cbn zeta in Ho. rewrite E in Ho. cbn in Ho. by apply Ho.
Qed.

(** Before any [update] stores a record under [b], the suggestion of [b]
    is [max_step]. *)
Lemma run_keeps_suggestion cs t b :
  no_update_for b cs ->
  Tuner.suggestion (Tuner.run t cs).1 b = Tuner.suggestion t b.
Proof.
  unfold no_update_for. revert t.
  induction cs as [|c cs IH]; intros t Hno; cbn; [done|].
  rewrite tuner_arrivals_cons in Hno. apply app_eq_nil in Hno as [Hc Hcs].
  pose proof (step_keeps_suggestion t b c Hc) as Hs.
  destruct (Tuner.step t c) as [t1 r]. specialize (IH t1 Hcs).
  destruct (Tuner.run t1 cs) as [t2 rs]. cbn in *. congruence.
Qed.

Lemma recomputed_in_range m (target : F) cur w :
  1 <= cur <= m -> 1 <= recomputed m target cur w <= m.
Proof.
  intros Hc. unfold recomputed. case_bool_decide; [done|].
  repeat match goal with |- context [if ?c then _ else _] => destruct c end; lia.
Qed.

Lemma step_in_range t c :
  suggestions_in_range t -> suggestions_in_range (Tuner.step t c).1.
Proof.
  intros Hr b. destruct (step_tuner_config t c) as (-> & _).
  destruct c as [b' | b' s a d]; cbn.
  - destruct (get_step_frame t b') as (Hs & _). specialize (Hs b).
    destruct (Tuner.get_step t b'). cbn in *. rewrite Hs. apply Hr.
  - destruct (Z.eq_dec d 0) as [Hz | Hd]; [subst d|].
    + rewrite update_drafted_zero. apply Hr.
    + destruct (update_suggestion t b' s a d Hd) as (Hb & _ & _ & Ho & _).
      cbn zeta in Hb, Ho. destruct (Tuner.update t b' s a d) as [t' r]. cbn in *.
      destruct (decide (b = b')) as [-> | Hne].
      * rewrite Hb. apply recomputed_in_range, Hr.
      * rewrite Ho by done. apply Hr.
Qed.

Lemma init_in_range m w (target : F) :
  1 <= m -> suggestions_in_range (Tuner.__init__ m w target).
Proof. intros Hm b. unfold Tuner.suggestion. cbn. rewrite lookup_empty. cbn. lia. Qed.

(** After every sequence of calls [get_step] returns a step in
    [1, max_step]. *)
Lemma tuner_get_step_in_range m w (target : F) cs b :
  1 <= m ->
  1 <= (Tuner.get_step (Tuner.run (Tuner.__init__ m w target) cs).1 b).2 <= m.
Proof.
  intros Hm. rewrite get_step_returns_suggestion.
  pose proof (run_tuner_preserves suggestions_in_range step_in_range cs _
                (init_in_range m w target Hm) b) as Hr.
  by destruct (run_tuner_config (Tuner.__init__ m w target) cs) as (Hmax & _);
    rewrite Hmax in Hr.
Qed.

Lemma step_holds_last t b c arr :
  0 <= Tuner.window_size t ->
  holds_last t b arr -> holds_last (Tuner.step t c).1 b (arr ++ tuner_arrival b c).
Proof.
  intros Hw Hl. unfold holds_last in *.
  destruct (step_tuner_config t c) as (_ & -> & _).
  destruct c as [b' | b' s a d]; cbn [Tuner.step].
  - destruct (get_step_frame t b') as (_ & Hh & _).
    destruct (Tuner.get_step t b'). cbn in *. by rewrite Hh, app_nil_r.
  - destruct (Z.eq_dec d 0) as [Hz | Hd]; [subst d|].
    + rewrite update_drafted_zero, tuner_arrival_miss, app_nil_r by auto. apply Hl.
    + pose proof (update_window t b' s a d Hd Hw) as Hh.
      destruct (Tuner.update t b' s a d) as [t' r]. cbn [fst] in *. rewrite Hh.
      destruct (decide (b' = b)) as [-> | Hne].
      * rewrite tuner_arrival_hit by done.
        rewrite lookup_insert_eq. unfold window_before.
        destruct (Tuner.history t !! b) as [d0|].
        -- destruct Hl as [Hm Hi]. split; [done|].
           rewrite <- Hm. apply deque_append_lastn. by rewrite Hm.
        -- subst arr. split; [done|].
           by rewrite (deque_append_lastn (Deque [] _) []).
      * rewrite tuner_arrival_miss by auto.
        by rewrite lookup_insert_ne, app_nil_r.
Qed.

Lemma run_holds_last cs t pre :
  0 <= Tuner.window_size t ->
  (forall b, holds_last t b (tuner_arrivals b pre)) ->
  forall b, holds_last (Tuner.run t cs).1 b (tuner_arrivals b (pre ++ cs)).
Proof.
  revert t pre. induction cs as [|c cs IH]; intros t pre Hw Hl b; cbn.
  - by rewrite app_nil_r.
  - pose proof (fun b => step_holds_last t b c _ Hw (Hl b)) as Hs.
    destruct (step_tuner_config t c) as (_ & Hws & _).
    destruct (Tuner.step t c) as [t1 r]. cbn in Hs, Hws.
    specialize (IH t1 (pre ++ [c])).
    rewrite <- app_assoc in IH. cbn in IH.
    destruct (Tuner.run t1 cs) as [t2 rs]. apply IH; [lia|].
    intros b0. rewrite tuner_arrivals_app. cbn. rewrite app_nil_r. apply Hs.
Qed.

(** The window of a batch size is the last [window_size] records stored
    under it. *)
Lemma tuner_window_lastn m w (target : F) cs b :
  0 <= w ->
  Tuner.window (Tuner.run (Tuner.__init__ m w target) cs).1 b =
  lastn (Z.to_nat w) (tuner_arrivals b cs).
Proof.
  intros Hw.
  pose proof (run_holds_last cs (Tuner.__init__ m w target) [] Hw) as Hl.
  destruct (run_tuner_config (Tuner.__init__ m w target) cs) as (_ & Hws & _).
  cbn in Hl, Hws. specialize (Hl (fun b0 => eq_refl _ ) b).
  unfold holds_last, Tuner.window in *. rewrite Hws in Hl.
  destruct (Tuner.history _ !! b).
  - by destruct Hl.
  - change (tuner_arrivals b cs = []) in Hl. by rewrite Hl, lastn_nil.
Qed.
End tuner_traces.

(** ** The bandit controller *)

Section controller_facts.
Context {F : Type} `{PyFloat F}.
Implicit Types (c : Controller.SpeculativeController F).
Implicit Types (h : gmap (Z * Z) (deque (F * Z))) (key : Z * Z).

Lemma same_windows_trans h1 h2 h3 :
  same_windows h1 h2 -> same_windows h2 h3 -> same_windows h1 h3.
Proof. intros H12 H23 key. by rewrite H23, H12. Qed.

Lemma history_get_spec h key :
  let '(d, h') := Controller.history_get h key in
  items d = Controller.window_of h key /\
  h' !! key = Some d /\
  same_windows h h' /\
  (capacity_20 h -> capacity_20 h').
Proof.
  unfold Controller.history_get, Controller.window_of.
  destruct (h !! key) as [d|] eqn:E.
  - rewrite E. by repeat split.
  - rewrite lookup_insert_eq. repeat split.
    + intros k. unfold Controller.window_of.
      destruct (decide (key = k)) as [<-|Hne].
      * by rewrite lookup_insert_eq, E.
      * by rewrite lookup_insert_ne.
    + intros Hc k d. destruct (decide (key = k)) as [<-|Hne].
      * rewrite lookup_insert_eq. by intros [= <-].
      * rewrite lookup_insert_ne by done. apply Hc.
Qed.

Lemma short_ext w B h h' s : same_windows h h' -> short w B h' s = short w B h s.
Proof. intros Hs. unfold short. by rewrite Hs. Qed.

Lemma tps_in_ext h h' B s : same_windows h h' -> tps_in h' B s = tps_in h B s.
Proof. intros Hs. unfold tps_in. by rewrite Hs. Qed.

Lemma best_from_ext (tp tp' : Z -> option F) cands best m :
  (forall s, tp s = tp' s) -> best_from tp cands best m = best_from tp' cands best m.
Proof.
  intros Ht. revert best m. induction cands as [|s rest IH]; intros best m; cbn; [done|].
  rewrite <- Ht. destruct (tp s) as [t|]; [|done]. by destruct (fgt t m).
Qed.

(** The first loop finds the first candidate short of samples. *)
Lemma warmup_loop_spec w B cands h :
  let '(h', r) := Controller.warmup_loop w B cands h in
  same_windows h h' /\ (capacity_20 h -> capacity_20 h') /\
  r = find (short w B h) cands.
Proof.
  revert h. induction cands as [|s rest IH]; intros h; cbn; [done|].
  pose proof (history_get_spec h (B, s)) as Hg.
  destruct (Controller.history_get h (B, s)) as [d h1].
  destruct Hg as (Hd & _ & Hs & Hc).
  unfold short at 1. rewrite <- Hd.
  destruct (Z.of_nat (length (items d)) <? w); [done|].
  specialize (IH h1). destruct (Controller.warmup_loop w B rest h1) as [h2 r].
  destruct IH as (Hs' & Hc' & ->). split; [|split].
  - by eapply same_windows_trans.
  - auto.
  - apply find_pointwise. intros s'. by apply short_ext.
Qed.

(** The second loop is [best_from] over the throughputs of the windows. *)
Lemma exploit_loop_spec B cands h best m :
  let '(h', r, m') := Controller.exploit_loop B cands h best m in
  same_windows h h' /\ (capacity_20 h -> capacity_20 h') /\
  (r, m') = best_from (tps_in h B) cands best m.
Proof.
  revert h best m. induction cands as [|s rest IH]; intros h best m; cbn; [done|].
  pose proof (history_get_spec h (B, s)) as Hg.
  destruct (Controller.history_get h (B, s)) as [d h1].
  destruct Hg as (Hd & _ & Hs & Hc).
  assert (Hrec : forall best' m',
    let '(h', r, m'') := Controller.exploit_loop B rest h1 best' m' in
    same_windows h h' /\ (capacity_20 h -> capacity_20 h') /\
    (r, m'') = best_from (tps_in h B) rest best' m').
  { intros best' m'. specialize (IH h1 best' m').
    destruct (Controller.exploit_loop B rest h1 best' m') as [[h2 r] m''].
    destruct IH as (Hs' & Hc' & ->). split; [|split].
    - by eapply same_windows_trans.
    - auto.
    - apply best_from_ext. intros s'. by apply tps_in_ext. }
  unfold tps_in at 1. rewrite <- Hd. unfold Controller.throughput.
  destruct (items d) as [|x xs]; [apply Hrec|].
  destruct (fgt (fsum (map fst (x :: xs))) (of_Z 0)); [|apply Hrec].
  destruct (fgt _ m); apply Hrec.
Qed.

Lemma set_history_id c : Controller.set_history c (Controller.history c) = c.
Proof. by destruct c. Qed.

Lemma bucket_ok c b :
  Controller.bs_bucket_size c <> 0 ->
  Controller.bucket c b = Ok (Controller.bucket_of (Controller.bs_bucket_size c) b).
Proof. intros Hb. unfold Controller.bucket. by destruct (Z.eqb_spec (Controller.bs_bucket_size c) 0). Qed.

(** [get_num_steps] writes the history only, where it adds empty
    windows. *)
Lemma get_num_steps_frame c b u pick :
  exists h', (Controller.get_num_steps c b u pick).1 = Controller.set_history c h' /\
    same_windows (Controller.history c) h' /\
    (capacity_20 (Controller.history c) -> capacity_20 h').
Proof.
  unfold Controller.get_num_steps.
  destruct (Controller.bucket c b) as [B|e].
  2: { exists (Controller.history c). by rewrite set_history_id. }
  pose proof (warmup_loop_spec (Controller.warmup_samples c) B
                (Controller.step_candidates c) (Controller.history c)) as Hw.
  destruct (Controller.warmup_loop _ _ _ _) as [h1 r].
  destruct Hw as (Hs & Hc & _).
  destruct r as [s|]; [by exists h1|].
  destruct (flt u (Controller.exploration_rate c)); [by exists h1|].
  pose proof (exploit_loop_spec B (Controller.step_candidates c) h1 1 (of_Q (-1))) as He.
  destruct (Controller.exploit_loop _ _ _ _ _) as [[h2 r] m].
  destruct He as (Hs' & Hc' & _).
  exists h2. split; [by destruct (fgt m (of_Z 0))|].
  split; [by eapply same_windows_trans | auto].
Qed.

(** What [get_num_steps] returns is [decision] for the bucket. *)
Lemma get_num_steps_decision c b u pick B :
  Controller.bucket c b = Ok B ->
  (Controller.get_num_steps c b u pick).2 = decision c B u pick.
Proof.
  intros HB. unfold Controller.get_num_steps, decision. rewrite HB.
  pose proof (warmup_loop_spec (Controller.warmup_samples c) B
                (Controller.step_candidates c) (Controller.history c)) as Hw.
  destruct (Controller.warmup_loop _ _ _ _) as [h1 r].
  destruct Hw as (Hs & _ & ->).
  destruct (find _ _) as [s|]; [done|].
  destruct (flt u (Controller.exploration_rate c)); [done|].
  pose proof (exploit_loop_spec B (Controller.step_candidates c) h1 1 (of_Q (-1))) as He.
  destruct (Controller.exploit_loop _ _ _ _ _) as [[h2 r] m].
  destruct He as (_ & _ & He).
  rewrite (best_from_ext _ (tps_of c B)) in He by (intros s; by apply tps_in_ext).
  rewrite <- He. by destruct (fgt m (of_Z 0)).
Qed.
End controller_facts.

Section controller_updates.
Context {F : Type} `{PyFloat F}.
Implicit Types (c : Controller.SpeculativeController F).
Implicit Types (h : gmap (Z * Z) (deque (F * Z))) (key : Z * Z).

(** [update_with_step] appends the record to the window of
    [(bucket, num_steps)], whatever the latency, and then may raise while
    it formats the log line. *)
Lemma update_with_step_spec c b n a lat u B :
  Controller.bucket c b = Ok B ->
  capacity_20 (Controller.history c) ->
  exists h',
    (Controller.update_with_step c b n a lat u).1 = Controller.set_history c h' /\
    capacity_20 h' /\
    Controller.window_of h' (B, n) =
      items (deque_append (Deque (Controller.window c (B, n)) 20) (lat, zsum a)) /\
    (forall key, key <> (B, n) ->
       Controller.window_of h' key = Controller.window c key) /\
    (Controller.update_with_step c b n a lat u).2 =
      if flt u (of_Q (5 # 100)) && feqb lat (of_Z 0)
      then Raise ZeroDivisionError else Ok tt.
Proof.
  intros HB Hcap. unfold Controller.update_with_step. rewrite HB.
  pose proof (history_get_spec (Controller.history c) (B, n)) as Hg.
  destruct (Controller.history_get _ _) as [d h1].
  destruct Hg as (Hd & Hl & Hs & Hc). specialize (Hc Hcap).
  pose proof (Hc _ _ Hl) as Hm.
  exists (<[(B, n) := deque_append d (lat, zsum a)]> h1).
  split; [by destruct (flt u (of_Q (5 # 100))), (feqb lat (of_Z 0))|]. split; [|split; [|split]].
  - intros k d'. destruct (decide ((B, n) = k)) as [<-|Hne].
    + rewrite lookup_insert_eq. intros [= <-]. by rewrite deque_append_maxlen.
    + rewrite lookup_insert_ne by done. apply Hc.
  - unfold Controller.window_of at 1. rewrite lookup_insert_eq.
    unfold Controller.window. rewrite <- Hd. destruct d as [l m]. cbn in Hm. by subst m.
  - intros k Hne. unfold Controller.window_of at 1.
    rewrite lookup_insert_ne by done. apply Hs.
  - by destruct (flt u (of_Q (5 # 100))), (feqb lat (of_Z 0)).
Qed.

(** Every call writes the history only. *)
Lemma step_controller_frame c k :
  exists h', (Controller.step c k).1 = Controller.set_history c h'.
Proof.
  destruct k as [b u pick | b a l | b n a l u]; cbn.
  - destruct (get_num_steps_frame c b u pick) as (h' & Hh & _).
    destruct (Controller.get_num_steps c b u pick). by exists h'.
  - exists (Controller.history c). rewrite set_history_id.
    unfold Controller.update. destruct (fle l (of_Z 0)); [done|].
    by destruct (Controller.bucket c b).
  - unfold Controller.update_with_step.
    destruct (Controller.bucket c b) as [B|e]; cbn.
    2: { exists (Controller.history c). by rewrite set_history_id. }
    destruct (Controller.history_get _ _) as [d h1]. eexists.
    by destruct (flt u (of_Q (5 # 100))), (feqb l (of_Z 0)).
Qed.

Lemma run_controller_frame c ks :
  exists h', (Controller.run c ks).1 = Controller.set_history c h'.
Proof.
  revert c. induction ks as [|k ks IH]; intros c; cbn.
  - exists (Controller.history c). by rewrite set_history_id.
  - destruct (step_controller_frame c k) as (h1 & H1).
    destruct (Controller.step c k) as [c1 r]. cbn in H1. subst c1.
    destruct (IH (Controller.set_history c h1)) as (h2 & H2).
    destruct (Controller.run _ ks) as [c2 rs]. cbn in *. by exists h2.
Qed.

Lemma configured_set_history c n h :
  configured c n -> configured (Controller.set_history c h) n.
Proof. done. Qed.

Lemma configured_init n ti : configured (Controller.__init__ n ti) n.
Proof. by repeat split. Qed.

Lemma controller_arrivals_app key (ks1 ks2 : list (Controller.call F)) :
  controller_arrivals key (ks1 ++ ks2) =
  controller_arrivals key ks1 ++ controller_arrivals key ks2.
Proof. unfold controller_arrivals. apply flat_map_app. Qed.

(** A call keeps the capacities, and appends to each window the record
    it stores there. *)
Lemma step_holds_last_20 c k :
  Controller.bs_bucket_size c = 4 ->
  capacity_20 (Controller.history c) ->
  capacity_20 (Controller.history (Controller.step c k).1) /\
  forall key arr,
    holds_last_20 (Controller.history c) key arr ->
    holds_last_20 (Controller.history (Controller.step c k).1) key
      (arr ++ controller_arrival key k).
Proof.
  intros Hbs Hcap. unfold holds_last_20.
  destruct k as [b u pick | b a l | b n a l u]; cbn.
  - destruct (get_num_steps_frame c b u pick) as (h' & Hh & Hs & Hc).
    destruct (Controller.get_num_steps c b u pick) as [c' r]. cbn in *. subst c'. cbn.
    split; [auto|]. intros key arr Hk. by rewrite app_nil_r, Hs.
  - assert (Hu : (Controller.update c b a l).1 = c).
    { unfold Controller.update. destruct (fle l (of_Z 0)); [done|].
      by destruct (Controller.bucket c b). }
    destruct (Controller.update c b a l) as [c' r]. cbn in *. subst c'.
    split; [done|]. intros key arr Hk. by rewrite app_nil_r.
  - assert (HB : Controller.bucket c b = Ok (Controller.bucket_of 4 b)).
    { rewrite <- Hbs. apply bucket_ok. lia. }
    destruct (update_with_step_spec c b n a l u _ HB Hcap) as (h' & Hh & Hc & Hw & Ho & _).
    destruct (Controller.update_with_step c b n a l u) as [c' r]. cbn in *. subst c'. cbn.
    split; [done|]. intros key arr Hk.
    destruct (decide ((Controller.bucket_of 4 b, n) = key)) as [<-|Hne].
    + rewrite bool_decide_eq_true_2 by done. rewrite Hw.
      unfold Controller.window. rewrite Hk.
      exact (deque_append_lastn (Deque (lastn 20 arr) 20) arr _ eq_refl).
    + rewrite bool_decide_eq_false_2 by done. rewrite app_nil_r, Ho by done. apply Hk.
Qed.

Lemma run_holds_last_20 ks c pre :
  Controller.bs_bucket_size c = 4 ->
  capacity_20 (Controller.history c) ->
  (forall key, holds_last_20 (Controller.history c) key (controller_arrivals key pre)) ->
  forall key,
    holds_last_20 (Controller.history (Controller.run c ks).1) key
      (controller_arrivals key (pre ++ ks)).
Proof.
  revert c pre. induction ks as [|k ks IH]; intros c pre Hbs Hcap Hl key; cbn.
  - by rewrite app_nil_r.
  - destruct (step_holds_last_20 c k Hbs Hcap) as (Hcap1 & Hl1).
    destruct (step_controller_frame c k) as (h1 & Hh1).
    destruct (Controller.step c k) as [c1 r]. cbn in Hcap1, Hl1, Hh1.
    specialize (IH c1 (pre ++ [k])). rewrite <- app_assoc in IH. cbn in IH.
    destruct (Controller.run c1 ks) as [c2 rs]. apply IH.
    + by subst c1.
    + done.
    + intros key0. rewrite controller_arrivals_app. cbn. rewrite app_nil_r.
      apply Hl1, Hl.
Qed.

(** The window of a key is the last 20 records stored under it. *)
Lemma controller_window_lastn n ti ks key :
  Controller.window (Controller.run (Controller.__init__ n ti) ks).1 key =
  lastn 20 (controller_arrivals key ks).
Proof.
  apply (run_holds_last_20 ks (Controller.__init__ n ti) []); [done| |].
  - intros k d. cbn. by rewrite lookup_empty.
  - intros k. unfold holds_last_20, Controller.window_of. cbn. by rewrite lookup_empty.
Qed.
End controller_updates.

Section controller_decision.
Context {F : Type} `{PyFloat F}.
Implicit Types (c : Controller.SpeculativeController F) (tp : Z -> option F).

Lemma best_from_elem tp cands best m :
  (best_from tp cands best m).1 = best \/ (best_from tp cands best m).1 ∈ cands.
Proof.
  revert best m. induction cands as [|s rest IH]; intros best m; cbn; [by left|].
  assert (Hkeep : (best_from tp rest best m).1 = best \/
                  (best_from tp rest best m).1 ∈ s :: rest).
  { destruct (IH best m); [by left | right; by apply list_elem_of_further]. }
  destruct (tp s) as [t|]; [|done]. destruct (fgt t m); [|done].
  right. destruct (IH s t) as [-> | Hin].
  - apply list_elem_of_here.
  - by apply list_elem_of_further.
Qed.

Lemma random_choice_elem (l : list Z) pick :
  l <> [] -> exists x, Controller.random_choice l pick = Ok x /\ x ∈ l.
Proof.
  intros Hl. unfold Controller.random_choice.
  assert (Hlt : (pick mod length l < length l)%nat).
  { apply Nat.mod_upper_bound. by destruct l. }
  destruct (lookup_lt_is_Some_2 l _ Hlt) as [x Hx]. rewrite Hx.
  exists x. split; [done|]. by eapply list_elem_of_lookup_2.
Qed.

(** A configured controller decides on a step in [1, max_steps]. *)
Lemma decision_in_range c n B u pick :
  configured c n -> 1 <= n ->
  exists v, decision c B u pick = Ok v /\ 1 <= v <= n.
Proof.
  intros (Hmax & Hcands & _) Hn. unfold decision.
  assert (Hin : forall s, s ∈ Controller.step_candidates c -> 1 <= s <= n).
  { intros s. rewrite Hcands, elem_of_py_range. lia. }
  destruct (find _ _) as [s|] eqn:Ef.
  { exists s. split; [done|]. apply find_some in Ef as [Hs _].
    by apply Hin, list_elem_of_In. }
  destruct (flt u (Controller.exploration_rate c)).
  { destruct (random_choice_elem (Controller.step_candidates c) pick) as (x & -> & Hx).
    - rewrite Hcands. intros Hnil. apply (f_equal length) in Hnil.
      unfold py_range in Hnil. rewrite length_map, length_seq in Hnil. cbn in Hnil. lia.
    - exists x. auto. }
  pose proof (best_from_elem (tps_of c B) (Controller.step_candidates c) 1 (of_Q (-1))) as Hb.
  destruct (best_from _ _ _ _) as [r m]. cbn in Hb.
  destruct (fgt m (of_Z 0)).
  - exists r. split; [done|]. destruct Hb as [-> | Hr]; [lia | by apply Hin].
  - exists (Controller.max_steps c). split; [done|]. lia.
Qed.

(** After every sequence of calls [get_num_steps] returns a step in
    [1, max_steps]. *)
Lemma controller_get_num_steps_in_range n ti ks b u pick :
  1 <= n ->
  exists v,
    (Controller.get_num_steps (Controller.run (Controller.__init__ n ti) ks).1 b u pick).2 = Ok v /\
    1 <= v <= n.
Proof.
  intros Hn. destruct (run_controller_frame (Controller.__init__ n ti) ks) as (h' & ->).
  assert (Hc : configured (Controller.set_history (Controller.__init__ n ti) h') n).
  { apply configured_set_history, configured_init. }
  rewrite (get_num_steps_decision _ _ _ _ (Controller.bucket_of 4 b)) by done.
  by apply decision_in_range.
Qed.

Section ordered.
Context {nan : F -> bool}.
Hypothesis laws : PyFloatLaws F nan.

Lemma flt_asym (x y : F) : flt x y = true -> flt y x = false.
Proof.
  intros Hxy. destruct (flt y x) eqn:Hyx; [|done].
  pose proof (flt_trans laws _ _ _ Hxy Hyx) as Hxx.
  by rewrite (flt_irrefl laws) in Hxx.
Qed.

(** Below [y], below everything [y] is not above. *)
Lemma flt_le_trans (x y z : F) :
  nan z = false -> flt x y = true -> flt z y = false -> flt x z = true.
Proof.
  intros Hz Hxy Hzy. destruct (flt x z) eqn:Hxz; [done|].
  by rewrite (flt_negtrans laws _ _ _ Hz Hxz Hzy) in Hxy.
Qed.

Lemma fle_lt_trans (x y z : F) :
  nan x = false -> flt y x = false -> flt y z = true -> flt x z = true.
Proof.
  intros Hx Hyx Hyz. destruct (flt x z) eqn:Hxz; [done|].
  by rewrite (flt_negtrans laws _ _ _ Hx Hyx Hxz) in Hyz.
Qed.

(** A throughput is a number. *)
Lemma throughput_number (w : list (F * Z)) (t : F) :
  Controller.throughput w = Some t -> nan t = false.
Proof.
  unfold Controller.throughput. destruct w as [|x w]; [done|].
  destruct (fgt _ (of_Z 0)) eqn:Hpos; [|done].
  intros [= <-]. by apply (fdiv_number laws).
Qed.

Lemma minus_one_not_positive : fgt (of_Q (-1) : F) (of_Z 0) = false.
Proof. unfold fgt, of_Z. by apply (of_Q_mono laws). Qed.

(** The second loop ends on the greatest throughput, at its first
    candidate. *)
Lemma best_from_spec tp cands best0 max0 :
  (forall s t, tp s = Some t -> nan t = false) ->
  nan max0 = false ->
  let '(r, m) := best_from tp cands best0 max0 in
  (forall j s' t', cands !! j = Some s' -> tp s' = Some t' -> flt m t' = false) /\
  flt m max0 = false /\ nan m = false /\
  ((r = best0 /\ m = max0) \/
   exists i, cands !! i = Some r /\ tp r = Some m /\ flt max0 m = true /\
     forall j s' t', (j < i)%nat -> cands !! j = Some s' -> tp s' = Some t' ->
       flt t' m = true).
Proof.
  intros Htp. revert best0 max0.
  induction cands as [|s rest IH]; intros best0 max0 Hmax0; cbn.
  { split; [done|]. split; [apply (flt_irrefl laws)|]. split; [done | by left]. }
  assert (Hskip : forall t, tp s = Some t -> flt max0 t = false ->
    let '(r, m) := best_from tp rest best0 max0 in
    (forall j s' t', (s :: rest) !! j = Some s' -> tp s' = Some t' -> flt m t' = false) /\
    flt m max0 = false /\ nan m = false /\
    ((r = best0 /\ m = max0) \/
     exists i, (s :: rest) !! i = Some r /\ tp r = Some m /\ flt max0 m = true /\
       forall j s' t', (j < i)%nat -> (s :: rest) !! j = Some s' -> tp s' = Some t' ->
         flt t' m = true)).
  { intros t Ht Hle. specialize (IH best0 max0 Hmax0).
    destruct (best_from tp rest best0 max0) as [r m].
    destruct IH as (Hall & Hm & Hnum & Hr). split; [|split; [done|split; [done|]]].
    - intros [|j] s' t'; cbn; [|apply Hall].
      intros [= <-] Ht'. rewrite Ht in Ht'. injection Ht' as <-.
      by apply (flt_negtrans laws _ max0).
    - destruct Hr as [Hr | (i & Hi & Hti & Hgt & Hbefore)]; [by left|].
      right. exists (S i). repeat split; try done.
      intros [|j] s' t' Hj; cbn; [|apply Hbefore; lia].
      intros [= <-] Ht'. rewrite Ht in Ht'. injection Ht' as <-.
      apply (fle_lt_trans _ max0); [by eapply Htp | done | done]. }
  destruct (tp s) as [t|] eqn:Ht.
  2: { specialize (IH best0 max0 Hmax0). destruct (best_from tp rest best0 max0) as [r m].
       destruct IH as (Hall & Hm & Hnum & Hr). split; [|split; [done|split; [done|]]].
       - intros [|j] s' t'; cbn; [|apply Hall]. intros [= <-]. by rewrite Ht.
       - destruct Hr as [Hr | (i & Hi & Hti & Hgt & Hbefore)]; [by left|].
         right. exists (S i). repeat split; try done.
         intros [|j] s' t' Hj; cbn; [|apply Hbefore; lia].
         intros [= <-]. by rewrite Ht. }
  unfold fgt at 1. destruct (flt max0 t) eqn:Hgt; [|by apply (Hskip t)].
  clear Hskip. specialize (IH s t (Htp s t Ht)). destruct (best_from tp rest s t) as [r m].
  destruct IH as (Hall & Hm & Hnum & Hr).
  assert (Hmax : flt max0 m = true) by (by apply (flt_le_trans _ t)).
  split; [|split; [by apply flt_asym|split; [done|]]].
  - intros [|j] s' t'; cbn; [|apply Hall].
    intros [= <-] Ht'. rewrite Ht in Ht'. by injection Ht' as <-.
  - right. destruct Hr as [[-> ->] | (i & Hi & Hti & Hgt' & Hbefore)].
    + exists 0%nat. repeat split; try done. intros j s' t' Hj. lia.
    + exists (S i). repeat split; try done.
      intros [|j] s' t' Hj; cbn; [|apply Hbefore; lia].
      intros [= <-] Ht'. rewrite Ht in Ht'. by injection Ht' as <-.
Qed.
End ordered.
End controller_decision.

(** ** Exact rationals satisfy the ordering laws *)

Lemma Qltb_lt (x y : Q) : Qltb x y = true <-> (x < y)%Q.
Proof. unfold Qltb, Qlt. apply Z.ltb_lt. Qed.

Lemma Qltb_ge (x y : Q) : Qltb x y = false <-> (y <= x)%Q.
Proof. unfold Qltb, Qle. apply Z.ltb_ge. Qed.

Lemma Q_laws : PyFloatLaws Q (fun _ => false).
Proof.
  split; cbn.
  - intros x. apply Qltb_ge, Qle_refl.
  - intros x y z. rewrite !Qltb_lt. apply Qlt_trans.
  - intros x y z _. rewrite !Qltb_ge. intros Hyx Hzy. by apply (Qle_trans _ y).
  - intros p q Hpq. by apply Qltb_ge.
  - done.
  - done.
  - intros x. unfold of_Z. cbn. rewrite Qltb_lt. intros Hx.
    destruct (Qeq_bool x (inject_Z 0)) eqn:E; [|done].
    apply Qeq_bool_iff in E. rewrite E in Hx. by apply Qlt_irrefl in Hx.
Qed.

Section controller_warmup.
Context {F : Type} `{PyFloat F}.
Implicit Types (c : Controller.SpeculativeController F).

Lemma find_none_intro {A : Type} (f : A -> bool) (l : list A) :
  (forall x, x ∈ l -> f x = false) -> find f l = None.
Proof.
  induction l as [|a l IH]; intros Hall; cbn; [done|].
  rewrite (Hall a) by apply list_elem_of_here.
  apply IH. intros x Hx. by apply Hall, list_elem_of_further.
Qed.

(** The history an [update_with_step] leaves, whatever the latency. *)
Lemma update_with_step_history c b n a lat u :
  Controller.bs_bucket_size c <> 0 ->
  let key := (Controller.bucket_of (Controller.bs_bucket_size c) b, n) in
  (Controller.update_with_step c b n a lat u).1 =
    Controller.set_history c
      (<[key := deque_append (deque_before c key) (lat, zsum a)]> (Controller.history c)) /\
  (Controller.update_with_step c b n a lat u).2 =
    if flt u (of_Q (5 # 100)) && feqb lat (of_Z 0)
    then Raise ZeroDivisionError else Ok tt.
Proof.
  intros Hb key. unfold Controller.update_with_step.
  rewrite bucket_ok by done. fold key.
  unfold Controller.history_get, deque_before.
  destruct (Controller.history c !! key) as [d|].
  - by destruct (flt u (of_Q (5 # 100))), (feqb lat (of_Z 0)).
  - rewrite insert_insert_eq.
    by destruct (flt u (of_Q (5 # 100))), (feqb lat (of_Z 0)).
Qed.

(** The placeholder [update] returns and writes nothing. *)
Lemma update_placeholder c b a lat :
  Controller.bs_bucket_size c <> 0 -> Controller.update c b a lat = (c, Ok tt).
Proof.
  intros Hb. unfold Controller.update. rewrite bucket_ok by done.
  by destruct (fle lat (of_Z 0)).
Qed.

(** While a candidate is short of samples, [get_num_steps] returns the
    first such candidate, whatever the draws. *)
Lemma get_num_steps_warmup c b :
  Controller.bs_bucket_size c <> 0 ->
  let B := Controller.bucket_of (Controller.bs_bucket_size c) b in
  (exists s, s ∈ Controller.step_candidates c /\
     Z.of_nat (length (Controller.window c (B, s))) < Controller.warmup_samples c) ->
  exists i s,
    Controller.step_candidates c !! i = Some s /\
    Z.of_nat (length (Controller.window c (B, s))) < Controller.warmup_samples c /\
    (forall j s', (j < i)%nat -> Controller.step_candidates c !! j = Some s' ->
       Controller.warmup_samples c <= Z.of_nat (length (Controller.window c (B, s')))) /\
    forall u pick, (Controller.get_num_steps c b u pick).2 = Ok s.
Proof.
  intros Hb B (s0 & Hin & Hshort).
  pose proof (find_first (short (Controller.warmup_samples c) B (Controller.history c))
                (Controller.step_candidates c)) as Hf.
  destruct (find _ _) as [s|] eqn:Ef.
  - destruct Hf as (i & Hi & Hs & Hbefore). exists i, s.
    split; [done|]. split; [by apply Z.ltb_lt in Hs|]. split.
    + intros j s' Hj Hs'. specialize (Hbefore j s' Hj Hs'). by apply Z.ltb_ge in Hbefore.
    + intros u pick. rewrite (get_num_steps_decision c b u pick B) by by apply bucket_ok.
      unfold decision. by rewrite Ef.
  - specialize (Hf s0 Hin). apply Z.ltb_ge in Hf. unfold Controller.window in Hshort. lia.
Qed.
End controller_warmup.

Section controller_rounds.
Context {F : Type} `{PyFloat F}.
Context {nan : F -> bool}.
Hypothesis laws : PyFloatLaws F nan.
Implicit Types (c : Controller.SpeculativeController F).

(** A round under warmup: the first short candidate is decided and its
    window gains the reported record. *)
Lemma round_appends c r rs B n :
  Controller.bs_bucket_size c = 4 ->
  capacity_20 (Controller.history c) ->
  Controller.bucket_of 4 (Controller.r_batch_size r) = B ->
  find (short (Controller.warmup_samples c) B (Controller.history c))
    (Controller.step_candidates c) = Some n ->
  (length (Controller.window c (B, n)) < 20)%nat ->
  flt (of_Z 0) (Controller.r_latency r) = true ->
  exists h2,
    Controller.decisions c (r :: rs) =
      match Controller.decisions (Controller.set_history c h2) rs with
      | Some ds => Some (n :: ds)
      | None => None
      end /\
    capacity_20 h2 /\
    length (Controller.window_of h2 (B, n)) = S (length (Controller.window c (B, n))) /\
    forall key, key <> (B, n) -> Controller.window_of h2 key = Controller.window c key.
Proof.
  intros Hbs Hcap HB Hfind Hlen Hpos. cbn [Controller.decisions].
  assert (Hbucket : Controller.bucket c (Controller.r_batch_size r) = Ok B).
  { rewrite bucket_ok by lia. by rewrite Hbs, HB. }
  destruct (get_num_steps_frame c (Controller.r_batch_size r) (Controller.r_u r)
              (Controller.r_pick r)) as (h1 & Hc1 & Hs1 & Hcap1).
  pose proof (get_num_steps_decision c _ (Controller.r_u r) (Controller.r_pick r) B Hbucket)
    as Hdec.
  unfold decision in Hdec. rewrite Hfind in Hdec.
  destruct (Controller.get_num_steps c _ _ _) as [c1 res]. cbn in Hc1, Hdec. subst c1 res.
  destruct (update_with_step_spec (Controller.set_history c h1)
              (Controller.r_batch_size r) n (Controller.r_accept_lens r)
              (Controller.r_latency r) (Controller.r_log_u r) B Hbucket (Hcap1 Hcap))
    as (h2 & Hc2 & Hcap2 & Hw & Ho & Hres).
  rewrite (fpos_nonzero laws _ Hpos), andb_false_r in Hres.
  destruct (Controller.update_with_step _ _ _ _ _ _) as [c2 res]. cbn in Hc2, Hres.
  subst c2 res. exists h2. split; [done|]. split; [done|].
  assert (Hsame : forall key,
    Controller.window (Controller.set_history c h1) key = Controller.window c key).
  { intros key. apply Hs1. }
  split.
  - rewrite Hw, Hsame. unfold deque_append. cbn [items maxlen].
    rewrite length_app. cbn [length].
    destruct (Nat.ltb_spec 20 (length (Controller.window c (B, n)) + 1)); [lia|].
    rewrite length_app. cbn. lia.
  - intros key Hkey. by rewrite Ho, Hsame.
Qed.

(** One round of the warmup of candidates 1, 2, 3. *)
Lemma round_warming c r rs B l1 l2 l3 :
  warming c B l1 l2 l3 ->
  Controller.bucket_of 4 (Controller.r_batch_size r) = B ->
  flt (of_Z 0) (Controller.r_latency r) = true ->
  (l1 <= 2)%nat -> (l2 <= 2)%nat -> (l3 < 2)%nat ->
  exists n c2,
    Controller.decisions c (r :: rs) =
      match Controller.decisions c2 rs with
      | Some ds => Some (n :: ds)
      | None => None
      end /\
    (((l1 < 2)%nat /\ n = 1 /\ warming c2 B (S l1) l2 l3) \/
     (l1 = 2%nat /\ (l2 < 2)%nat /\ n = 2 /\ warming c2 B l1 (S l2) l3) \/
     (l1 = 2%nat /\ l2 = 2%nat /\ n = 3 /\ warming c2 B l1 l2 (S l3))).
Proof.
  intros (Hcands & Hwarm & Hbs & Hcap & H1 & H2 & H3) HB Hpos Hl1 Hl2 Hl3.
  assert (Hfind : exists n,
    find (short (Controller.warmup_samples c) B (Controller.history c))
      (Controller.step_candidates c) = Some n /\
    (((l1 < 2)%nat /\ n = 1) \/ (l1 = 2%nat /\ (l2 < 2)%nat /\ n = 2) \/
     (l1 = 2%nat /\ l2 = 2%nat /\ n = 3))).
  { rewrite Hcands, Hwarm. cbn [find]. unfold short.
    change (Controller.window_of (Controller.history c)) with (Controller.window c).
    rewrite H1, H2, H3.
    destruct (Z.ltb_spec (Z.of_nat l1) 2); [exists 1; split; [done|]; left; lia|].
    destruct (Z.ltb_spec (Z.of_nat l2) 2); [exists 2; split; [done|]; right; left; lia|].
    destruct (Z.ltb_spec (Z.of_nat l3) 2); [exists 3; split; [done|]; right; right; lia|].
    lia. }
  destruct Hfind as (n & Hfind & Hn).
  destruct (round_appends c r rs B n Hbs Hcap HB Hfind) as (h2 & Hd & Hcap2 & Hlen & Ho);
    [|done|].
  { destruct Hn as [[? ->] | [(? & ? & ->) | (? & ? & ->)]]; lia. }
  exists n, (Controller.set_history c h2). split; [done|].
  assert (Hw : forall k l, k <> n -> length (Controller.window c (B, k)) = l ->
    length (Controller.window (Controller.set_history c h2) (B, k)) = l).
  { intros k l Hk <-. unfold Controller.window at 1. cbn. rewrite Ho; [done|congruence]. }
  assert (Hwn : forall l, length (Controller.window c (B, n)) = l ->
    length (Controller.window (Controller.set_history c h2) (B, n)) = S l).
  { intros l <-. apply Hlen. }
  destruct Hn as [[? ->] | [(? & ? & ->) | (? & ? & ->)]];
    [left | right; left | right; right]; repeat split; auto.
Qed.

Lemma warming_start ti B :
  warming (Controller.set_warmup_samples (Controller.__init__ 3 ti) 2) B 0 0 0.
Proof.
  repeat split.
  intros key d. cbn. by rewrite lookup_empty.
Qed.

(** With two warmup samples and candidates 1, 2, 3, the first six
    decisions of a bucket are 1, 1, 2, 2, 3, 3. *)
Lemma six_rounds ti (r1 r2 r3 r4 r5 r6 : Controller.round F) B :
  Forall (fun r => Controller.bucket_of 4 (Controller.r_batch_size r) = B /\
                   flt (of_Z 0) (Controller.r_latency r) = true)
    [r1; r2; r3; r4; r5; r6] ->
  Controller.decisions (Controller.set_warmup_samples (Controller.__init__ 3 ti) 2)
    [r1; r2; r3; r4; r5; r6] = Some [1; 1; 2; 2; 3; 3].
Proof.
  intros Hrs.
  repeat match goal with
         | Hf : Forall _ (_ :: _) |- _ => apply Forall_cons_1 in Hf as [[? ?] Hf]
         end.
  pose proof (warming_start ti B) as Hw.
  repeat match goal with
  | Hw : warming ?c B ?l1 ?l2 ?l3 |- context [Controller.decisions ?c (?r :: ?rs)] =>
      let n := fresh "n" in let c2 := fresh "c" in let Hd := fresh "Hd" in
      let Hn := fresh "Hn" in
      destruct (round_warming c r rs B l1 l2 l3 Hw) as (n & c2 & Hd & Hn);
      [done | done | lia | lia | lia |];
      rewrite Hd; clear Hd Hw;
      destruct Hn as [(? & -> & Hw) | [(? & ? & -> & Hw) | (? & ? & -> & Hw)]];
      try lia
  end.
  all: try reflexivity.
Qed.
End controller_rounds.

Section controller_exploit.
Context {F : Type} `{PyFloat F}.
Context {nan : F -> bool}.
Hypothesis laws : PyFloatLaws F nan.
Implicit Types (c : Controller.SpeculativeController F).

Lemma warmed_up_find c B :
  warmed_up c B ->
  find (short (Controller.warmup_samples c) B (Controller.history c))
    (Controller.step_candidates c) = None.
Proof.
  intros Hw. apply find_none_intro. intros s Hs. apply Z.ltb_ge. by apply Hw.
Qed.

(** Past warmup and without exploration, [get_num_steps] returns the
    first candidate of greatest throughput, or [max_steps] when no
    throughput is positive. *)
Lemma get_num_steps_exploit c b u pick :
  Controller.bs_bucket_size c <> 0 ->
  let B := Controller.bucket_of (Controller.bs_bucket_size c) b in
  warmed_up c B ->
  flt u (Controller.exploration_rate c) = false ->
  exists r, (Controller.get_num_steps c b u pick).2 = Ok r /\
    (some_positive c B -> exists i, best_candidate c B i r) /\
    (~ some_positive c B -> r = Controller.max_steps c).
Proof.
  intros Hb B Hwarm Hu.
  rewrite (get_num_steps_decision c b u pick B) by by apply bucket_ok.
  unfold decision. rewrite warmed_up_find, Hu by done.
  pose proof (best_from_spec laws (tps_of c B) (Controller.step_candidates c) 1 (of_Q (-1)))
    as Hbest.
  specialize (Hbest (fun s t => throughput_number laws _ t) (of_Q_number laws _)).
  destruct (best_from _ _ _ _) as [r m]. destruct Hbest as (Hall & _ & Hnum & Hr).
  destruct (fgt m (of_Z 0)) eqn:Hm.
  - exists r. split; [done|].
    destruct Hr as [[_ ->] | (i & Hi & Ht & _ & Hbefore)].
    { by rewrite (minus_one_not_positive laws) in Hm. }
    assert (Hbc : best_candidate c B i r).
    { split; [done|]. exists m. split; [done|]. split; [done|].
      intros j s' t' Hj Ht'. split; [by eapply Hall | intros Hlt; by eapply Hbefore]. }
    split; [by exists i|]. intros Hno. destruct Hno.
    exists r, m. split; [by eapply list_elem_of_lookup_2 | done].
  - exists (Controller.max_steps c). split; [done|]. split; [|done].
    intros (s & t & Hs & Ht & Hpos).
    apply list_elem_of_lookup_1 in Hs as [j Hj].
    pose proof (Hall j s t Hj Ht) as Hle.
    unfold fgt in Hm, Hpos.
    by rewrite (flt_le_trans laws _ _ _ Hnum Hpos Hle) in Hm.
Qed.
End controller_exploit.

(** Bucket 8 with candidates 1, 2, 3 past warmup at throughputs 30, 50
    and 40, exploration disabled: the decision is 2. *)
Lemma bandit_scenario (c : Controller.SpeculativeController Q) (u : Q) (pick : nat)
    (t1 t2 t3 : Q) :
  Controller.step_candidates c = [1; 2; 3] ->
  Controller.bs_bucket_size c = 4 ->
  warmed_up c 8 ->
  (Controller.exploration_rate c == 0)%Q -> (0 <= u)%Q ->
  tps_of c 8 1 = Some t1 -> tps_of c 8 2 = Some t2 -> tps_of c 8 3 = Some t3 ->
  (t1 == 30)%Q -> (t2 == 50)%Q -> (t3 == 40)%Q ->
  (Controller.get_num_steps c 8 u pick).2 = Ok 2.
Proof.
  intros Hcands Hbs Hwarm Hrate Hu H1 H2 H3 E1 E2 E3.
  rewrite (get_num_steps_decision c 8 u pick 8).
  2: { rewrite bucket_ok by lia. by rewrite Hbs. }
  unfold decision. rewrite warmed_up_find by done.
  assert (Hflt : flt u (Controller.exploration_rate c) = false).
  { cbn. apply Qltb_ge. by rewrite Hrate. }
  rewrite Hflt, Hcands. cbn [best_from]. rewrite H1, H2, H3. unfold fgt, of_Z. cbn.
  assert (G1 : Qltb (-1) t1 = true) by (apply Qltb_lt; by rewrite E1).
  assert (G2 : Qltb t1 t2 = true) by (apply Qltb_lt; by rewrite E1, E2).
  assert (G3 : Qltb t2 t3 = false) by (apply Qltb_ge; by rewrite E2, E3).
  assert (G4 : Qltb (inject_Z 0) t2 = true) by (apply Qltb_lt; by rewrite E2).
  by rewrite G1, G2, G3, G4.
Qed.

(** ** The properties of the specification *)

(** C1 (the code departs from the claim).  The claim: [update_with_step]
    with a latency of zero or less returns and changes nothing.  The code
    has the guard in [update] only: [update_with_step] stores the record
    whatever the latency, here [(-1, 3)] under key [(4, 1)] of a new
    controller, and with a latency of zero it raises [ZeroDivisionError]
    when the log line is formatted, after the record is stored. *)
Theorem update_with_step_keeps_bad_latency :
  Controller.window (Controller.__init__ (F:=Q) 3 10) (4, 1) = [] /\
  Controller.window
    (Controller.update_with_step (Controller.__init__ 3 10) 4 1 [3] (-1)%Q 1%Q).1 (4, 1)
    = [((-1)%Q, 3)] /\
  (Controller.update_with_step (Controller.__init__ 3 10) 4 1 [3] (-1)%Q 1%Q).2 = Ok tt /\
  Controller.window
    (Controller.update_with_step (Controller.__init__ 3 10) 4 1 [3] 0%Q 0%Q).1 (4, 1)
    = [(0%Q, 3)] /\
  (Controller.update_with_step (Controller.__init__ 3 10) 4 1 [3] 0%Q 0%Q).2
    = Raise ZeroDivisionError /\
  Controller.update (Controller.__init__ 3 10) 4 [3] (-1)%Q = (Controller.__init__ 3 10, Ok tt).
Proof. by vm_compute. Qed.

(** C2.  After an [update] with [drafted_tokens] other than zero, the
    suggestion of the batch size is the recomputation over the window as
    the call leaves it: the records of the suggested step; no change when
    there is none; else their mean rate against the band, one step up
    capped at [max_step] above it, one step down floored at 1 below it,
    no change within the closed band.  Other batch sizes keep their
    suggestion.  With a [window_size] that is not negative the call
    returns and the window is the one before with the new record
    appended. *)
Theorem update_recomputes_suggestion {F : Type} `{PyFloat F}
    (t : Tuner.SpeculativeTuner F) (b s a d : Z) :
  d <> 0 ->
  let t' := (Tuner.update t b s a d).1 in
  let matching := filter (fun r => r.1 = Tuner.suggestion t b) (Tuner.window t' b) in
  let mean := mean_rate (map snd matching) in
  Tuner.suggestion t' b =
    recomputed (Tuner.max_step t) (Tuner.target_acceptance_rate t)
      (Tuner.suggestion t b) (Tuner.window t' b) /\
  (matching = [] -> Tuner.bs_to_step t' = Tuner.bs_to_step t) /\
  (fgt mean (fadd (Tuner.target_acceptance_rate t) (of_Q (1 # 10))) = false ->
   flt mean (fsub (Tuner.target_acceptance_rate t) (of_Q (1 # 10))) = false ->
   Tuner.suggestion t' b = Tuner.suggestion t b) /\
  (forall b', b' <> b -> Tuner.suggestion t' b' = Tuner.suggestion t b') /\
  (0 <= Tuner.window_size t ->
   (Tuner.update t b s a d).2 = Ok tt /\
   Tuner.window t' b = items (deque_append (window_before t b) (s, int_truediv a d))).
Proof. apply update_suggestion. Qed.

Lemma update_recomputes_suggestion_witness :
  10 <> 0 /\ Tuner.suggestion (Tuner.update Inputs.tuner_5 1 5 3 10).1 1 = 4.
Proof.
  split; [done|].
  rewrite (proj1 (update_recomputes_suggestion Inputs.tuner_5 1 5 3 10 ltac:(done))).
  by vm_compute.
Defined.

(** C3.  When every candidate of the bucket holds [warmup_samples] records
    or more and the exploration draw is not below [exploration_rate],
    [get_num_steps] returns the candidate of greatest throughput
    [sum(accepted_tokens) / sum(latency)], the earliest one among equals,
    if some throughput is positive, and [max_steps] if none is; a
    candidate has a throughput when its window is not empty and its total
    latency is positive.  For bucket 8 with candidates 1, 2, 3 past
    warmup at throughputs 30, 50 and 40 and an exploration rate of zero,
    [get_num_steps(8)] returns 2. *)
Theorem exploitation_returns_best :
  (forall (F : Type) (ops : PyFloat F) (nan : F -> bool), PyFloatLaws F nan ->
   forall (c : Controller.SpeculativeController F) (b : Z) (u : F) (pick : nat),
     Controller.bs_bucket_size c <> 0 ->
     let B := Controller.bucket_of (Controller.bs_bucket_size c) b in
     warmed_up c B ->
     flt u (Controller.exploration_rate c) = false ->
     exists r, (Controller.get_num_steps c b u pick).2 = Ok r /\
       (some_positive c B -> exists i, best_candidate c B i r) /\
       (~ some_positive c B -> r = Controller.max_steps c)) /\
  (forall (c : Controller.SpeculativeController Q) (u : Q) (pick : nat) (t1 t2 t3 : Q),
     Controller.step_candidates c = [1; 2; 3] ->
     Controller.bs_bucket_size c = 4 ->
     warmed_up c 8 ->
     (Controller.exploration_rate c == 0)%Q -> (0 <= u)%Q ->
     tps_of c 8 1 = Some t1 -> tps_of c 8 2 = Some t2 -> tps_of c 8 3 = Some t3 ->
     (t1 == 30)%Q -> (t2 == 50)%Q -> (t3 == 40)%Q ->
     (Controller.get_num_steps c 8 u pick).2 = Ok 2).
Proof.
  split.
  - intros F ops nan laws c b u pick. by apply (get_num_steps_exploit laws).
  - apply bandit_scenario.
Qed.

Lemma warm_controller_candidates :
  Controller.step_candidates Inputs.warm_controller = [1; 2; 3].
Proof. vm_compute. reflexivity. Qed.

Lemma warm_controller_warmed_up : warmed_up Inputs.warm_controller 8.
Proof.
  intros s Hs. rewrite warm_controller_candidates in Hs.
  repeat (apply elem_of_cons in Hs as [-> | Hs]);
    [apply Z.leb_le; vm_compute; reflexivity ..|].
  exfalso. by eapply elem_of_nil.
Qed.

Lemma exploitation_returns_best_witness :
  (Controller.get_num_steps Inputs.warm_controller 8 (1 # 2)%Q 0).2 = Ok 2 /\
  exists r, (Controller.get_num_steps Inputs.warm_controller 6 (1 # 2)%Q 0).2 = Ok r /\
    (some_positive Inputs.warm_controller 8 ->
     exists i, best_candidate Inputs.warm_controller 8 i r).
Proof.
  split.
  - apply (proj2 exploitation_returns_best Inputs.warm_controller (1 # 2)%Q 0%nat
             (150 # 5)%Q (250 # 5)%Q (200 # 5)%Q);
      try apply warm_controller_warmed_up; vm_compute; try reflexivity;
      intros Hgt; discriminate Hgt.
  - destruct (proj1 exploitation_returns_best Q _ _ Q_laws Inputs.warm_controller 6
                (1 # 2)%Q 0%nat) as (r & Hr & Hbest & _).
    + vm_compute. intros Hz. discriminate Hz.
    + apply warm_controller_warmed_up.
    + vm_compute. reflexivity.
    + exists r. split; [exact Hr | exact Hbest].
Defined.

(** C4.  While some candidate of the bucket holds fewer than
    [warmup_samples] records, [get_num_steps] returns the first such
    candidate in candidate order, whatever the exploration draws.  With
    [warmup_samples = 2] and candidates 1, 2, 3, six rounds on one bucket,
    each a decision followed by an [update_with_step] that reports the
    decided step with a positive latency, decide 1, 1, 2, 2, 3, 3. *)
Theorem warmup_comes_first :
  (forall (F : Type) (ops : PyFloat F) (c : Controller.SpeculativeController F) (b : Z),
     Controller.bs_bucket_size c <> 0 ->
     let B := Controller.bucket_of (Controller.bs_bucket_size c) b in
     (exists s, s ∈ Controller.step_candidates c /\
        Z.of_nat (length (Controller.window c (B, s))) < Controller.warmup_samples c) ->
     exists i s,
       Controller.step_candidates c !! i = Some s /\
       Z.of_nat (length (Controller.window c (B, s))) < Controller.warmup_samples c /\
       (forall j s', (j < i)%nat -> Controller.step_candidates c !! j = Some s' ->
          Controller.warmup_samples c <= Z.of_nat (length (Controller.window c (B, s')))) /\
       forall u pick, (Controller.get_num_steps c b u pick).2 = Ok s) /\
  (forall (F : Type) (ops : PyFloat F) (nan : F -> bool), PyFloatLaws F nan ->
   forall (tune_interval B : Z) (rs : list (Controller.round F)),
     length rs = 6%nat ->
     Forall (fun r => Controller.bucket_of 4 (Controller.r_batch_size r) = B /\
                      flt (of_Z 0) (Controller.r_latency r) = true) rs ->
     Controller.decisions
       (Controller.set_warmup_samples (Controller.__init__ 3 tune_interval) 2) rs
     = Some [1; 1; 2; 2; 3; 3]).
Proof.
  split.
  - intros F ops c b. apply get_num_steps_warmup.
  - intros F ops nan laws ti B rs Hlen Hrs.
    do 6 (destruct rs as [|? rs]; [discriminate Hlen|]).
    destruct rs; [|discriminate Hlen]. by apply (six_rounds laws ti _ _ _ _ _ _ B).
Qed.

Lemma six_rounds_8_same_bucket :
  Forall (fun r => Controller.bucket_of 4 (Controller.r_batch_size r) = 8 /\
                   flt (of_Z 0) (Controller.r_latency r) = true) Inputs.six_rounds_8.
Proof. repeat (apply Forall_cons; split; [split; vm_compute; reflexivity|]). apply Forall_nil_2. Qed.

Lemma warmup_comes_first_witness :
  Controller.decisions (Controller.set_warmup_samples (Controller.__init__ 3 10) 2)
    Inputs.six_rounds_8 = Some [1; 1; 2; 2; 3; 3] /\
  exists i s,
    Controller.step_candidates (Controller.__init__ (F:=Q) 3 10) !! i = Some s /\
    forall u pick, (Controller.get_num_steps (Controller.__init__ 3 10) 7 u pick).2 = Ok s.
Proof.
  split.
  - apply (proj2 warmup_comes_first Q _ _ Q_laws 10 8 Inputs.six_rounds_8).
    + vm_compute. reflexivity.
    + apply six_rounds_8_same_bucket.
  - destruct (proj1 warmup_comes_first Q _ (Controller.__init__ 3 10) 7) as (i & s & Hi & _ & _ & Hs).
    + vm_compute. intros Hz. discriminate Hz.
    + exists 1. split.
      * apply list_elem_of_here.
      * apply Z.ltb_lt. vm_compute. reflexivity.
    + exists i, s. split; [exact Hi | exact Hs].
Defined.

(** C5.  For [max_step >= 1] at construction, after every sequence of
    calls, [get_step] of the tuner and [get_num_steps] of the controller
    return, for every batch size, an integer in [1, max_step]. *)
Theorem step_counts_in_range (max_step : Z) :
  1 <= max_step ->
  (forall (F : Type) (ops : PyFloat F) (window_size : Z) (target : F)
          (cs : list Tuner.call) (b : Z),
     1 <= (Tuner.get_step (Tuner.run (Tuner.__init__ max_step window_size target) cs).1 b).2
       <= max_step) /\
  (forall (F : Type) (ops : PyFloat F) (tune_interval : Z)
          (ks : list (Controller.call F)) (b : Z) (u : F) (pick : nat),
     exists v,
       (Controller.get_num_steps
          (Controller.run (Controller.__init__ max_step tune_interval) ks).1 b u pick).2 = Ok v /\
       1 <= v <= max_step).
Proof.
  intros Hm. split.
  - intros F ops w target cs b. by apply tuner_get_step_in_range.
  - intros F ops ti ks b u pick. by apply controller_get_num_steps_in_range.
Qed.

Lemma step_counts_in_range_witness :
  1 <= 5 /\
  1 <= (Tuner.get_step (Tuner.run Inputs.tuner_5 Inputs.three_updates).1 1).2 <= 5 /\
  exists v,
    (Controller.get_num_steps
       (Controller.run (Controller.__init__ 5 10) Inputs.warm_calls).1 8 (1 # 2)%Q 3).2 = Ok v /\
    1 <= v <= 5.
Proof.
  assert (H5 : 1 <= 5) by (intros Hgt; discriminate Hgt).
  split; [exact H5|]. split.
  - apply (proj1 (step_counts_in_range 5 H5) Q _ 10 (6 # 10)%Q Inputs.three_updates 1).
  - apply (proj2 (step_counts_in_range 5 H5) Q _ 10 Inputs.warm_calls 8 (1 # 2)%Q 3%nat).
Defined.

(** C6.  A window never holds more than its capacity, [window_size] for
    the tuner (10 by default) and 20 for the controller: it holds the last
    [capacity] records stored under its key, in the order of arrival, so
    exactly [capacity] of them once more than [capacity] have arrived, the
    oldest leaving first. *)
Theorem windows_hold_the_last_records :
  (forall (F : Type) (ops : PyFloat F) (max_step window_size : Z) (target : F)
          (cs : list Tuner.call) (b : Z),
     0 <= window_size ->
     let win := Tuner.window (Tuner.run (Tuner.__init__ max_step window_size target) cs).1 b in
     let arr := tuner_arrivals b cs in
     win = lastn (Z.to_nat window_size) arr /\
     (length win <= Z.to_nat window_size)%nat /\
     ((Z.to_nat window_size < length arr)%nat -> length win = Z.to_nat window_size)) /\
  (forall (F : Type) (ops : PyFloat F) (max_step : Z) (cs : list Tuner.call) (b : Z),
     let win := Tuner.window (Tuner.run (Tuner.init_default max_step) cs).1 b in
     let arr := tuner_arrivals b cs in
     win = lastn 10 arr /\ (length win <= 10)%nat /\
     ((10 < length arr)%nat -> length win = 10%nat)) /\
  (forall (F : Type) (ops : PyFloat F) (initial_steps tune_interval : Z)
          (ks : list (Controller.call F)) (key : Z * Z),
     let win :=
       Controller.window (Controller.run (Controller.__init__ initial_steps tune_interval) ks).1 key in
     let arr := controller_arrivals key ks in
     win = lastn 20 arr /\ (length win <= 20)%nat /\
     ((20 < length arr)%nat -> length win = 20%nat)).
Proof.
  split; [|split].
  - intros F ops m w target cs b Hw win arr. subst win arr.
    rewrite tuner_window_lastn, length_lastn by done. repeat split; lia.
  - intros F ops m cs b win arr. subst win arr. unfold Tuner.init_default.
    rewrite tuner_window_lastn, length_lastn by lia.
    change (Z.to_nat 10) with 10%nat. repeat split; lia.
  - intros F ops n ti ks key win arr. subst win arr.
    rewrite controller_window_lastn, length_lastn. repeat split; lia.
Qed.

Lemma windows_hold_the_last_records_witness :
  0 <= 2 /\
  Tuner.window (Tuner.run (Tuner.__init__ 5 2 (6 # 10)%Q) Inputs.three_updates).1 1
  = [(5, (8 # 10)%Q); (5, (1 # 10)%Q)].
Proof.
  assert (H2 : 0 <= 2) by (intros Hgt; discriminate Hgt).
  split; [exact H2|].
  rewrite (proj1 (proj1 windows_hold_the_last_records Q _ 5 2 (6 # 10)%Q
                    Inputs.three_updates 1 H2)).
  vm_compute. reflexivity.
Defined.

(** C7.  An [update] of the tuner with [drafted_tokens == 0] returns and
    leaves the tuner as it was, windows and suggestions included. *)
Theorem update_zero_drafted_noop {F : Type} `{PyFloat F}
    (t : Tuner.SpeculativeTuner F) (batch_size step accepted_tokens : Z) :
  Tuner.update t batch_size step accepted_tokens 0 = (t, Ok tt).
Proof. apply update_drafted_zero. Qed.

(** C8, a counterexample.  On a new [SpeculativeTuner(5)],
    [update(1, 5, 0, 10)] stores the rate 0 under step 5, the suggested
    one, and lowers the suggestion of batch size 1 to 4: the first
    [get_step(1)] returns 4, not [max_step]. *)
Lemma first_get_step_after_update :
  no_get_step_for 1 [Tuner.Update 1 5 0 10] /\
  (Tuner.get_step (Tuner.run Inputs.tuner_5 [Tuner.Update 1 5 0 10]).1 1).2 = 4 /\
  (Tuner.get_step (Tuner.run Inputs.tuner_5 [Tuner.Update 1 5 0 10]).1 1).2
    <> Tuner.max_step Inputs.tuner_5.
Proof.
  split; [|split].
  - apply Forall_cons. split; [intros Heq; discriminate Heq | apply Forall_nil_2].
  - vm_compute. reflexivity.
  - vm_compute. intros Heq. discriminate Heq.
Qed.

(** C8, amended.  A [get_step(b)] that no [update(b, ...)] with
    [drafted_tokens] other than zero came before returns [max_step], as
    does every [get_step(b)] that finds no suggestion stored for [b]; and
    a [get_step(b)] right after a [get_step(b)] returns the same value and
    changes nothing, [get_step] changing no suggestion at all. *)
Theorem get_step_initial_and_repeat {F : Type} `{PyFloat F}
    (max_step window_size : Z) (target : F) (cs : list Tuner.call) (b : Z) :
  no_update_for b cs ->
  (Tuner.get_step (Tuner.run (Tuner.__init__ max_step window_size target) cs).1 b).2 = max_step /\
  (forall t : Tuner.SpeculativeTuner F,
     (Tuner.bs_to_step t !! b = None -> (Tuner.get_step t b).2 = Tuner.max_step t) /\
     Tuner.get_step (Tuner.get_step t b).1 b =
       ((Tuner.get_step t b).1, (Tuner.get_step t b).2) /\
     (forall b', Tuner.suggestion (Tuner.get_step t b).1 b' = Tuner.suggestion t b')).
Proof.
  intros Hno. split.
  - rewrite get_step_returns_suggestion, run_keeps_suggestion by done.
    unfold Tuner.suggestion. cbn. by rewrite lookup_empty.
  - intros t. split; [|split].
    + intros Hb. unfold Tuner.get_step. by rewrite Hb.
    + apply get_step_twice.
    + apply get_step_frame.
Qed.

Lemma get_step_initial_and_repeat_witness :
  no_update_for 1 [Tuner.GetStep 1; Tuner.Update 2 5 0 10; Tuner.Update 1 5 0 0] /\
  (Tuner.get_step
     (Tuner.run Inputs.tuner_5
        [Tuner.GetStep 1; Tuner.Update 2 5 0 10; Tuner.Update 1 5 0 0]).1 1).2 = 5.
Proof.
  assert (Hno : no_update_for (F:=Q) 1
                  [Tuner.GetStep 1; Tuner.Update 2 5 0 10; Tuner.Update 1 5 0 0])
    by (vm_compute; reflexivity).
  split; [exact Hno|].
  apply (proj1 (get_step_initial_and_repeat 5 10 (6 # 10)%Q _ 1 Hno)).
Defined.

(** C9.  The [update] of the controller is a placeholder: it returns and
    leaves the controller as it was, every field included, for a bucket
    size other than zero as [__init__] sets it; the call that stores the
    record is [update_with_step]. *)
Theorem update_is_a_placeholder {F : Type} `{PyFloat F}
    (c : Controller.SpeculativeController F) (batch_size : Z) (accept_lens : list Z)
    (latency : F) :
  Controller.bs_bucket_size c <> 0 ->
  Controller.update c batch_size accept_lens latency = (c, Ok tt) /\
  forall (num_steps : Z) (u : F),
    let key := (Controller.bucket_of (Controller.bs_bucket_size c) batch_size, num_steps) in
    (Controller.update_with_step c batch_size num_steps accept_lens latency u).1 =
    Controller.set_history c
      (<[key := deque_append (deque_before c key) (latency, zsum accept_lens)]>
         (Controller.history c)).
Proof.
  intros Hb. split.
  - by apply update_placeholder.
  - intros n u. by apply update_with_step_history.
Qed.

Lemma update_is_a_placeholder_witness :
  Controller.bs_bucket_size Inputs.reported_controller <> 0 /\
  Controller.update Inputs.reported_controller 7 [2; 1] (1 # 4)%Q
  = (Inputs.reported_controller, Ok tt).
Proof.
  assert (Hb : Controller.bs_bucket_size Inputs.reported_controller <> 0)
    by (vm_compute; intros Heq; discriminate Heq).
  split; [exact Hb|].
  apply (proj1 (update_is_a_placeholder Inputs.reported_controller 7 [2; 1] (1 # 4)%Q Hb)).
Defined.

(** ** Further properties *)

(** X3.  [update_with_step] checks no latency.  For a bucket size other
    than zero and a deque within its capacity, whatever the latency and
    the log draw, the window of [(bucket, num_steps)] becomes its last
    [maxlen] records with [(latency, sum(accept_lens))] put at the end,
    every other window holds what it held, and the call writes the
    history only.  For a bucket, a step count and a token sum of a size
    that converts to a float, the call raises exactly when the log draw
    is below 0.05 and the latency is zero, [ZeroDivisionError] from the
    log line. *)
Theorem update_with_step_stores_every_latency {F : Type} `{PyFloat F}
    (c : Controller.SpeculativeController F) (batch_size num_steps : Z)
    (accept_lens : list Z) (latency u : F) :
  Controller.bs_bucket_size c <> 0 ->
  let bs_bucket := Controller.bucket_of (Controller.bs_bucket_size c) batch_size in
  let key := (bs_bucket, num_steps) in
  let cap := maxlen (deque_before c key) in
  let c' := (Controller.update_with_step c batch_size num_steps accept_lens latency u).1 in
  (length (Controller.window c key) <= cap)%nat ->
  Controller.window c' key
  = lastn cap (Controller.window c key ++ [(latency, zsum accept_lens)]) /\
  (forall key', key' <> key -> Controller.window c' key' = Controller.window c key') /\
  (exists h, c' = Controller.set_history c h) /\
  (float_sized bs_bucket -> float_sized num_steps -> float_sized (zsum accept_lens) ->
   (Controller.update_with_step c batch_size num_steps accept_lens latency u).2
   = if flt u (of_Q (5 # 100)) && feqb latency (of_Z 0)
     then Raise ZeroDivisionError else Ok tt).
Proof.
  intros Hb bs_bucket key cap c' Hlen.
  destruct (update_with_step_history c batch_size num_steps accept_lens latency u Hb)
    as [Hc Hr].
  fold bs_bucket key in Hc. fold c' in Hc.
  assert (Hwin : Controller.window c key = items (deque_before c key)).
  { unfold Controller.window, Controller.window_of, deque_before.
    by destruct (Controller.history c !! key). }
  split; [|split; [|split]].
  - rewrite Hc. unfold Controller.window at 1, Controller.window_of. cbn.
    rewrite lookup_insert_eq. rewrite Hwin. apply deque_append_lastn.
    unfold lastn. rewrite Hwin in Hlen. fold cap.
    by replace (length (items (deque_before c key)) - cap)%nat with 0%nat by lia.
  - intros key' Hne. rewrite Hc. unfold Controller.window, Controller.window_of. cbn.
    by rewrite lookup_insert_ne.
  - rewrite Hc. by eexists.
  - intros _ _ _. exact Hr.
Qed.

Lemma update_with_step_stores_every_latency_witness :
  Controller.bs_bucket_size (Controller.__init__ (F:=Q) 3 10) <> 0 /\
  Controller.window
    (Controller.update_with_step (Controller.__init__ 3 10) 6 2 [1; 2] 0%Q 0%Q).1 (8, 2)
  = [(0%Q, 3)] /\
  (Controller.update_with_step (Controller.__init__ 3 10) 6 2 [1; 2] 0%Q 0%Q).2
  = Raise ZeroDivisionError.
Proof.
  assert (Hb : Controller.bs_bucket_size (Controller.__init__ (F:=Q) 3 10) <> 0)
    by (vm_compute; intros Heq; discriminate Heq).
  split; [exact Hb|].
  destruct (update_with_step_stores_every_latency
              (Controller.__init__ 3 10) 6 2 [1; 2] 0%Q 0%Q Hb)
    as (Hw & _ & _ & Hr).
  { apply Nat.leb_le. vm_compute. reflexivity. }
  split.
  - etrans; [exact Hw|]. vm_compute. reflexivity.
  - etrans; [apply Hr; vm_compute; reflexivity|]. vm_compute. reflexivity.
Defined.

(** X4.  [get_num_steps] changes no record and no setting: every window
    holds what it held, and the call writes the history only. *)
Theorem get_num_steps_keeps_records {F : Type} `{PyFloat F}
    (c : Controller.SpeculativeController F) (batch_size : Z) (u : F) (pick : nat) :
  (forall key,
     Controller.window (Controller.get_num_steps c batch_size u pick).1 key
     = Controller.window c key) /\
  exists h, (Controller.get_num_steps c batch_size u pick).1 = Controller.set_history c h.
Proof.
  destruct (get_num_steps_frame c batch_size u pick) as (h & Hc & Hs & _).
  split; [|by exists h]. intros key. rewrite Hc. apply Hs.
Qed.

(** *** The bucket of a batch size *)

Lemma bucket_of_spec (size b : Z) :
  0 < size ->
  exists q, Controller.bucket_of size b = size * q /\ b <= size * q < b + size.
Proof.
  intros Hs. unfold Controller.bucket_of.
  exists ((b + size - 1) / size). split; [lia|].
  pose proof (Z.div_mod (b + size - 1) size ltac:(lia)) as Hdm.
  pose proof (Z.mod_pos_bound (b + size - 1) size Hs) as Hm. lia.
Qed.

Lemma bucket_of_interval (size k b : Z) :
  0 < size -> size * k < b <= size * (k + 1) ->
  Controller.bucket_of size b = size * (k + 1).
Proof.
  intros Hs Hb. destruct (bucket_of_spec size b Hs) as (q & -> & Hq).
  f_equal. nia.
Qed.

(** X5.  For a positive bucket size the bucket of a batch size is the
    least multiple of the size that is not below the batch size; it lies
    less than one size above it, and it is its own bucket. *)
Theorem bucket_is_least_multiple (size b : Z) :
  0 < size ->
  let B := Controller.bucket_of size b in
  (size | B) /\ b <= B < b + size /\
  (forall m, (size | m) -> b <= m -> B <= m) /\
  Controller.bucket_of size B = B.
Proof.
  intros Hs B. destruct (bucket_of_spec size b Hs) as (q & HB & Hq).
  fold B in HB. split; [|split; [|split]].
  - exists q. lia.
  - lia.
  - intros m [k ->] Hm. rewrite HB.
    assert (Hk : q < k + 1) by (apply (Z.mul_lt_mono_pos_l size); lia).
    rewrite (Z.mul_comm k). apply Z.mul_le_mono_nonneg_l; lia.
  - rewrite HB. rewrite (bucket_of_interval size (q - 1)); lia.
Qed.

Lemma bucket_is_least_multiple_witness :
  0 < 4 /\ Controller.bucket_of 4 5 = 8 /\ Controller.bucket_of 4 8 = 8 /\
  Controller.bucket_of 4 0 = 0.
Proof.
  assert (H4 : 0 < 4) by reflexivity.
  destruct (bucket_is_least_multiple 4 5 H4) as (_ & _ & _ & Hidem).
  split; [exact H4|]. split; [reflexivity|]. split; [exact Hidem | reflexivity].
Defined.

(** X6.  The batch sizes from [size * k + 1] to [size * (k + 1)] are
    pooled: on one controller [get_num_steps] and [update_with_step] do
    the same for any two of them, state and result. *)
Theorem batch_sizes_of_a_bucket_are_pooled {F : Type} `{PyFloat F}
    (c : Controller.SpeculativeController F) (k b b' : Z) :
  0 < Controller.bs_bucket_size c ->
  Controller.bs_bucket_size c * k < b <= Controller.bs_bucket_size c * (k + 1) ->
  Controller.bs_bucket_size c * k < b' <= Controller.bs_bucket_size c * (k + 1) ->
  (forall u pick, Controller.get_num_steps c b u pick = Controller.get_num_steps c b' u pick) /\
  (forall n a l u,
     Controller.update_with_step c b n a l u = Controller.update_with_step c b' n a l u).
Proof.
  intros Hs Hb Hb'.
  assert (HB : Controller.bucket c b = Controller.bucket c b').
  { rewrite !bucket_ok by lia.
    by rewrite (bucket_of_interval _ k b), (bucket_of_interval _ k b'). }
  split.
  - intros u pick. unfold Controller.get_num_steps. by rewrite HB.
  - intros n a l u. unfold Controller.update_with_step. by rewrite HB.
Qed.

Lemma batch_sizes_of_a_bucket_are_pooled_witness :
  Controller.get_num_steps Inputs.reported_controller 5 (1 # 2)%Q 0
  = Controller.get_num_steps Inputs.reported_controller 8 (1 # 2)%Q 0.
Proof.
  apply (proj1 (batch_sizes_of_a_bucket_are_pooled Inputs.reported_controller 1 5 8
                  ltac:(vm_compute; reflexivity)
                  ltac:(split; [vm_compute; reflexivity | vm_compute; intros Hgt; discriminate Hgt])
                  ltac:(split; [vm_compute; reflexivity | vm_compute; intros Hgt; discriminate Hgt]))).
Defined.

(** *** Steady reports to the tuner *)

Section tuner_steady.
Context {F : Type} `{PyFloat F}.
Implicit Types (t : Tuner.SpeculativeTuner F) (b : Z).

Lemma deque_append_bounded {A : Type} (d : deque A) (x : A) :
  (length (items d) <= maxlen d)%nat ->
  (length (items (deque_append d x)) <= maxlen d)%nat.
Proof.
  intros Hd. unfold deque_append. cbn [items].
  destruct (Nat.ltb_spec (maxlen d) (length (items d ++ [x]))) as [Hlt | Hge]; [|lia].
  rewrite length_app in Hlt. cbn in Hlt.
  destruct (items d ++ [x]) eqn:E; cbn; [lia|].
  apply (f_equal length) in E. rewrite length_app in E. cbn in E. lia.
Qed.

Lemma deque_append_Forall {A : Type} (P : A -> Prop) (d : deque A) (x : A) :
  Forall P (items d) -> P x -> Forall P (items (deque_append d x)).
Proof.
  intros Hd Hx. unfold deque_append. cbn [items].
  assert (Hall : Forall P (items d ++ [x])) by (apply Forall_app; auto).
  destruct (maxlen d <? length (items d ++ [x]))%nat; [|done].
  destruct (items d ++ [x]); [done|]. by apply Forall_cons in Hall as [_ ?].
Qed.

(** A deque of capacity one or more holds the record just appended. *)
Lemma deque_append_holds {A : Type} (d : deque A) (x : A) :
  (1 <= maxlen d)%nat -> x ∈ items (deque_append d x).
Proof.
  intros Hm. unfold deque_append. cbn [items].
  destruct (Nat.ltb_spec (maxlen d) (length (items d ++ [x]))) as [Hlt | Hge].
  - rewrite length_app in Hlt. cbn in Hlt.
    destruct (items d) as [|y l]; cbn in *; [lia|].
    apply elem_of_app. right. apply list_elem_of_here.
  - apply elem_of_app. right. apply list_elem_of_here.
Qed.

Lemma uniform_rates (r : F) (l : list (Z * F)) :
  Forall (fun rec : Z * F => rec.2 = r) l -> map snd l = repeat r (length l).
Proof. induction 1 as [|x l Hx _ IH]; cbn; [done|]. by rewrite Hx, IH. Qed.

Lemma window_before_get_step t b b' :
  window_before (Tuner.get_step t b').1 b = window_before t b.
Proof.
  destruct (get_step_frame t b') as (_ & Hh & _ & Hw).
  unfold window_before. by rewrite Hh, Hw.
Qed.

(** One round on a steady window: the suggestion moves as the mean of [k]
    copies of the rate tells, for the number [k] of records of the
    suggested step, and the window stays steady. *)
Lemma report_round t b a d :
  d <> 0 -> steady t b (int_truediv a d) ->
  let r := int_truediv a d in
  let s := Tuner.suggestion t b in
  let t2 := report_rounds t b a d 1 in
  exists k, (1 <= k <= maxlen (window_before t b))%nat /\
    Tuner.suggestion t2 b =
      (if fgt (mean_rate (repeat r k))
            (fadd (Tuner.target_acceptance_rate t) (of_Q (1 # 10)))
       then Z.min (Tuner.max_step t) (s + 1)
       else if flt (mean_rate (repeat r k))
                 (fsub (Tuner.target_acceptance_rate t) (of_Q (1 # 10)))
       then Z.max 1 (s - 1) else s) /\
    steady t2 b r /\
    maxlen (window_before t2 b) = maxlen (window_before t b) /\
    Tuner.max_step t2 = Tuner.max_step t /\
    Tuner.target_acceptance_rate t2 = Tuner.target_acceptance_rate t.
Proof.
  intros Hd (Hws & Hcap & Hlen & Hall & Hrange) r s t2. subst t2. cbn [report_rounds].
  pose proof (get_step_frame t b) as (Hs1 & Hh1 & Hm1 & Hw1).
  pose proof (step_tuner_config t (Tuner.GetStep b)) as (_ & _ & Htg1). cbn in Htg1.
  pose proof (window_before_get_step t b b) as Hwb1.
  pose proof (get_step_returns_suggestion t b) as Hret.
  destruct (Tuner.get_step t b) as [t1 s1]. cbn [fst snd] in *. subst s1. fold s.
  pose proof (Hs1 b) as Hsb. fold s in Hsb.
  pose proof (update_suggestion t1 b s a d Hd) as (Hsug & _ & _ & _ & _).
  pose proof (update_window t1 b s a d Hd ltac:(lia)) as Hh2.
  pose proof (step_tuner_config t1 (Tuner.Update b s a d)) as (Hm2 & Hw2 & Htg2).
  cbn in Hm2, Hw2, Htg2. cbn zeta in Hsug.
  destruct (Tuner.update t1 b s a d) as [t2 res]. cbn [fst snd] in *.
  fold r in Hh2. rewrite Hwb1 in Hh2.
  set (d2 := deque_append (window_before t b) (s, r)) in *.
  assert (Hwb2 : window_before t2 b = d2).
  { unfold window_before. by rewrite Hh2, lookup_insert_eq. }
  assert (Hwin2 : Tuner.window t2 b = items d2).
  { unfold Tuner.window. by rewrite Hh2, lookup_insert_eq. }
  assert (Hall2 : Forall (fun rec : Z * F => rec.2 = r) (items d2))
    by (by apply deque_append_Forall).
  assert (Hlen2 : (length (items d2) <= maxlen (window_before t b))%nat)
    by (by apply deque_append_bounded).
  assert (Hin : (s, r) ∈ filter (fun rec : Z * F => rec.1 = s) (items d2)).
  { apply list_elem_of_filter. split; [done|]. by apply deque_append_holds. }
  set (matching := filter (fun rec : Z * F => rec.1 = s) (items d2)) in *.
  exists (length matching). split; [|split; [|split; [|split; [|split]]]].
  - split.
    + destruct matching; [by apply elem_of_nil in Hin | cbn; lia].
    + etrans; [apply length_filter | done].
  - rewrite Hsug, Hsb, Hwin2, Hm1, Htg1. unfold recomputed. fold matching.
    rewrite bool_decide_eq_false_2
      by (intros Hnil; rewrite Hnil in Hin; by apply elem_of_nil in Hin).
    rewrite (uniform_rates r matching); [done|].
    apply Forall_forall. intros rec [_ Hrec]%list_elem_of_filter.
    by apply (proj1 (Forall_forall _ _) Hall2).
  - unfold steady. rewrite Hwb2, Hw2, Hw1. repeat split; try done; try lia.
    + rewrite Hsug, Hsb, Hm1.
      pose proof (recomputed_in_range (Tuner.max_step t) (Tuner.target_acceptance_rate t1)
                    s (Tuner.window t2 b) Hrange). lia.
    + rewrite Hm2, Hm1, Hsug, Hsb, Hm1.
      pose proof (recomputed_in_range (Tuner.max_step t) (Tuner.target_acceptance_rate t1)
                    s (Tuner.window t2 b) Hrange). lia.
  - by rewrite Hwb2.
  - by rewrite Hm2.
  - by rewrite Htg2.
Qed.

Lemma report_rounds_S t b a d n :
  report_rounds t b a d (S n) = report_rounds (report_rounds t b a d 1) b a d n.
Proof.
  cbn [report_rounds]. destruct (Tuner.get_step t b) as [t1 s].
  by destruct (Tuner.update t1 b s a d).
Qed.

Lemma steady_new (max_step window_size : Z) (target r : F) b :
  1 <= max_step -> 1 <= window_size ->
  steady (Tuner.__init__ max_step window_size target) b r.
Proof.
  intros Hm Hw. unfold steady, window_before, Tuner.suggestion. cbn.
  rewrite !lookup_empty. cbn. repeat split; try lia. apply Forall_nil_2.
Qed.
End tuner_steady.

Section tuner_steady_rounds.
Context {F : Type} `{PyFloat F}.
Implicit Types (t : Tuner.SpeculativeTuner F) (b : Z).

(** Rounds on a steady window move the suggestion by [g] each, when the
    band tells [g] for every mean the window can show. *)
Lemma report_rounds_by (g : Z -> Z) t b a d n :
  d <> 0 -> steady t b (int_truediv a d) ->
  (forall k s, (1 <= k <= maxlen (window_before t b))%nat ->
     (if fgt (mean_rate (repeat (int_truediv a d) k))
           (fadd (Tuner.target_acceptance_rate t) (of_Q (1 # 10)))
      then Z.min (Tuner.max_step t) (s + 1)
      else if flt (mean_rate (repeat (int_truediv a d) k))
                (fsub (Tuner.target_acceptance_rate t) (of_Q (1 # 10)))
      then Z.max 1 (s - 1) else s) = g s) ->
  Tuner.suggestion (report_rounds t b a d n) b = Nat.iter n g (Tuner.suggestion t b).
Proof.
  intros Hd. revert t. induction n as [|n IH]; intros t Hst Hg; [done|].
  rewrite report_rounds_S, Nat.iter_succ_r.
  destruct (report_round t b a d Hd Hst) as (k & Hk & Hsug & Hst2 & Hcap & Hm & Htg).
  cbn zeta in *. rewrite IH; [|done|].
  - by rewrite Hsug, Hg.
  - intros k' s Hk'. rewrite Hcap in Hk'. rewrite Hm, Htg. by apply Hg.
Qed.

Lemma iter_down n s :
  1 <= s -> Nat.iter n (fun s => Z.max 1 (s - 1)) s = Z.max 1 (s - Z.of_nat n).
Proof. intros Hs. induction n as [|n IH]; [cbn; lia|]. rewrite Nat.iter_succ, IH. lia. Qed.

Lemma iter_up m n s :
  s <= m -> Nat.iter n (fun s => Z.min m (s + 1)) s = Z.min m (s + Z.of_nat n).
Proof. intros Hs. induction n as [|n IH]; [cbn; lia|]. rewrite Nat.iter_succ, IH. lia. Qed.

Lemma iter_keep n (s : Z) : Nat.iter n (fun s => s) s = s.
Proof. induction n as [|n IH]; [done|]. by rewrite Nat.iter_succ. Qed.
End tuner_steady_rounds.

(** X1.  Sustained low acceptance backs off one step a round, down to 1:
    on a window whose records all have the reported rate, when the mean
    of any number of copies of that rate the window can hold is below
    [target - 0.1] and not above [target + 0.1], [n] rounds of [get_step]
    and [update] under the returned step leave the suggestion at
    [max(1, s - n)], [s] being the suggestion before. *)
Theorem steady_low_reports_back_off {F : Type} `{PyFloat F}
    (t : Tuner.SpeculativeTuner F) (b accepted drafted : Z) (n : nat) :
  drafted <> 0 ->
  steady t b (int_truediv accepted drafted) ->
  means_below (Tuner.target_acceptance_rate t) (int_truediv accepted drafted)
    (maxlen (window_before t b)) ->
  Tuner.suggestion (report_rounds t b accepted drafted n) b
  = Z.max 1 (Tuner.suggestion t b - Z.of_nat n).
Proof.
  intros Hd Hst Hlow.
  rewrite (report_rounds_by (fun s => Z.max 1 (s - 1))).
  - apply iter_down. by destruct Hst as (_ & _ & _ & _ & [? _]).
  - done.
  - done.
  - intros k s Hk. by destruct (Hlow k Hk) as [-> ->].
Qed.

Lemma steady_low_reports_back_off_witness :
  10 <> 0 /\
  Tuner.suggestion (@report_rounds float binary64_PyFloat Inputs.tuner_binary64 8 3 10 2) 8
  = 3.
Proof.
  assert (Hd : 10 <> 0) by (intros Heq; discriminate Heq).
  split; [exact Hd|].
  rewrite (@steady_low_reports_back_off float binary64_PyFloat
             Inputs.tuner_binary64 8 3 10 2 Hd).
  - vm_compute. reflexivity.
  - apply steady_new; vm_compute; intros Hgt; discriminate Hgt.
  - intros k Hk.
    assert (Hcases : k = 1%nat \/ k = 2%nat \/ k = 3%nat).
    { change (maxlen (window_before Inputs.tuner_binary64 8)) with 3%nat in Hk. lia. }
    destruct Hcases as [-> | [-> | ->]]; split; vm_compute; reflexivity.
Defined.

(** X2.  Sustained high acceptance climbs one step a round, up to
    [max_step]: on such a window, when the mean of any number of copies
    of the rate is above [target + 0.1], [n] rounds leave the suggestion
    at [min(max_step, s + n)]. *)
Theorem steady_high_reports_climb {F : Type} `{PyFloat F}
    (t : Tuner.SpeculativeTuner F) (b accepted drafted : Z) (n : nat) :
  drafted <> 0 ->
  steady t b (int_truediv accepted drafted) ->
  means_above (Tuner.target_acceptance_rate t) (int_truediv accepted drafted)
    (maxlen (window_before t b)) ->
  Tuner.suggestion (report_rounds t b accepted drafted n) b
  = Z.min (Tuner.max_step t) (Tuner.suggestion t b + Z.of_nat n).
Proof.
  intros Hd Hst Hhigh.
  rewrite (report_rounds_by (fun s => Z.min (Tuner.max_step t) (s + 1))).
  - apply iter_up. by destruct Hst as (_ & _ & _ & _ & [_ ?]).
  - done.
  - done.
  - intros k s Hk. by rewrite (Hhigh k Hk).
Qed.

Lemma recovering_tuner_steady : steady Inputs.recovering_tuner 8 (int_truediv 9 10).
Proof.
  unfold steady. split; [|split; [|split; [|split; [|split]]]].
  - vm_compute. intros Hgt. discriminate Hgt.
  - apply Nat.leb_le. vm_compute. reflexivity.
  - apply Nat.leb_le. vm_compute. reflexivity.
  - vm_compute. apply Forall_cons. split; [reflexivity | apply Forall_nil_2].
  - vm_compute. intros Hgt. discriminate Hgt.
  - vm_compute. intros Hgt. discriminate Hgt.
Qed.

Lemma steady_high_reports_climb_witness :
  10 <> 0 /\
  Tuner.suggestion Inputs.recovering_tuner 8 = 4 /\
  Tuner.suggestion (report_rounds Inputs.recovering_tuner 8 9 10 1) 8 = 5 /\
  Tuner.suggestion (report_rounds Inputs.recovering_tuner 8 9 10 3) 8 = 5.
Proof.
  assert (Hd : 10 <> 0) by (intros Heq; discriminate Heq).
  assert (Hhigh : means_above (Tuner.target_acceptance_rate Inputs.recovering_tuner)
                    (int_truediv 9 10) (maxlen (window_before Inputs.recovering_tuner 8))).
  { intros k Hk.
    assert (Hk1 : k = 1%nat).
    { change (maxlen (window_before Inputs.recovering_tuner 8)) with 1%nat in Hk. lia. }
    subst k. vm_compute. reflexivity. }
  split; [exact Hd|]. split; [vm_compute; reflexivity|]. split.
  - rewrite (steady_high_reports_climb Inputs.recovering_tuner 8 9 10 1 Hd
               recovering_tuner_steady Hhigh).
    vm_compute. reflexivity.
  - rewrite (steady_high_reports_climb Inputs.recovering_tuner 8 9 10 3 Hd
               recovering_tuner_steady Hhigh).
    vm_compute. reflexivity.
Defined.

(** X7.  Within the band the suggestion holds: on such a window, when the
    mean of any number of copies of the rate is neither above
    [target + 0.1] nor below [target - 0.1], no number of rounds changes
    the suggestion. *)
Theorem steady_band_reports_hold {F : Type} `{PyFloat F}
    (t : Tuner.SpeculativeTuner F) (b accepted drafted : Z) (n : nat) :
  drafted <> 0 ->
  steady t b (int_truediv accepted drafted) ->
  means_within (Tuner.target_acceptance_rate t) (int_truediv accepted drafted)
    (maxlen (window_before t b)) ->
  Tuner.suggestion (report_rounds t b accepted drafted n) b = Tuner.suggestion t b.
Proof.
  intros Hd Hst Hband.
  rewrite (report_rounds_by (fun s => s)); [apply iter_keep | done | done |].
  intros k s Hk. by destruct (Hband k Hk) as [-> ->].
Qed.

Lemma steady_band_reports_hold_witness :
  10 <> 0 /\
  Tuner.suggestion Inputs.holding_tuner 8 = 4 /\
  Tuner.suggestion (report_rounds Inputs.holding_tuner 8 7 10 4) 8 = 4.
Proof.
  assert (Hd : 10 <> 0) by (intros Heq; discriminate Heq).
  split; [exact Hd|]. split; [vm_compute; reflexivity|].
  rewrite (steady_band_reports_hold Inputs.holding_tuner 8 7 10 4 Hd).
  - vm_compute. reflexivity.
  - unfold steady. split; [|split; [|split; [|split; [|split]]]].
    + vm_compute. intros Hgt. discriminate Hgt.
    + apply Nat.leb_le. vm_compute. reflexivity.
    + apply Nat.leb_le. vm_compute. reflexivity.
    + vm_compute. apply Forall_cons. split; [|apply Forall_nil_2].
      reflexivity.
    + vm_compute. intros Hgt. discriminate Hgt.
    + vm_compute. intros Hgt. discriminate Hgt.
  - intros k Hk.
    assert (Hk1 : k = 1%nat).
    { change (maxlen (window_before Inputs.holding_tuner 8)) with 1%nat in Hk. lia. }
    subst k. split; vm_compute; reflexivity.
Defined.

(** *** Errors and edges of the tuner *)

Section tuner_edges.
Context {F : Type} `{PyFloat F}.
Implicit Types (t : Tuner.SpeculativeTuner F) (b : Z).

Lemma update_raises t b s a d :
  d <> 0 -> Tuner.window_size t < 0 -> Tuner.history t !! b = None ->
  Tuner.update t b s a d = (t, Raise ValueError).
Proof.
  intros Hd Hw Hb. unfold Tuner.update, deque_new. rewrite Hb.
  destruct (Z.eqb_spec d 0) as [|_]; [done|].
  by destruct (Z.ltb_spec (Tuner.window_size t) 0) as [_|]; [|lia].
Qed.

Lemma update_returns t b s a d :
  d = 0 \/ 0 <= Tuner.window_size t \/ is_Some (Tuner.history t !! b) ->
  (Tuner.update t b s a d).2 = Ok tt.
Proof.
  intros Hcase. unfold Tuner.update, deque_new.
  destruct (Z.eqb_spec d 0) as [|Hd]; [done|].
  assert (Hadj : forall d0,
    (Tuner._adjust_step
       (Tuner.set_history t (<[b := deque_append d0 (s, int_truediv a d)]> (Tuner.history t)))
       b).2 = Ok tt).
  { intros d0. eapply adjust_step_recomputed. cbn. apply lookup_insert_eq. }
  destruct (Tuner.history t !! b) as [d0|] eqn:Hb; [apply Hadj|].
  destruct (Z.ltb_spec (Tuner.window_size t) 0) as [Hneg|_]; [|apply Hadj].
  destruct Hcase as [? | [? | [? ?]]]; [done | lia | done].
Qed.


Lemma recomputed_near m (target : F) cur w :
  1 <= cur <= m -> Z.abs (recomputed m target cur w - cur) <= 1.
Proof.
  intros Hc. unfold recomputed. case_bool_decide; [lia|].
  repeat match goal with |- context [if ?c then _ else _] => destruct c end; lia.
Qed.

(** A call about another batch size leaves [b] as it is. *)
Lemma step_other t b c :
  call_batch_size c <> b -> agree_on b t (Tuner.step t c).1.
Proof.
  intros Hc. destruct (step_tuner_config t c) as (Hm & Hw & Htg).
  unfold agree_on. rewrite Hm, Hw, Htg. do 3 (split; [done|]).
  destruct c as [b' | b' s a d]; cbn in Hc; cbn [Tuner.step].
  - unfold Tuner.get_step. destruct (Tuner.bs_to_step t !! b'); cbn; [done|].
    by rewrite lookup_insert_ne.
  - unfold Tuner.update. destruct (d =? 0); [done|].
    destruct (match Tuner.history t !! b' with
              | Some d0 => Ok d0 | None => deque_new (Tuner.window_size t) end) as [d0|e];
      [|done].
    destruct (adjust_step_frame
      (Tuner.set_history t (<[b' := deque_append d0 (s, int_truediv a d)]> (Tuner.history t)))
      b') as (Hh & _ & _ & _ & Hbs).
    cbn zeta in Hh, Hbs. specialize (Hbs b (not_eq_sym Hc)).
    destruct (Tuner._adjust_step _ b') as [t2 r2]. cbn [fst] in *.
    rewrite Hh, Hbs. cbn. by rewrite lookup_insert_ne.
Qed.

(** A call about [b] reads the settings, the suggestion and the window of
    [b], and nothing else. *)
Lemma step_local t t' b c :
  call_batch_size c = b -> agree_on b t t' ->
  (Tuner.step t c).2 = (Tuner.step t' c).2 /\
  agree_on b (Tuner.step t c).1 (Tuner.step t' c).1.
Proof.
  intros Hc (Hm & Hw & Htg & Hbs & Hh). unfold agree_on.
  destruct c as [b' | b' s a d]; cbn in Hc; subst b'; cbn [Tuner.step].
  - unfold Tuner.get_step. rewrite <- Hbs.
    destruct (Tuner.bs_to_step t !! b) eqn:E; cbn.
    + rewrite E. by repeat split.
    + rewrite Hm, !lookup_insert_eq. by repeat split.
  - unfold Tuner.update. destruct (d =? 0); [by repeat split|].
    rewrite <- Hh, <- Hw.
    destruct (match Tuner.history t !! b with
              | Some d0 => Ok d0 | None => deque_new (Tuner.window_size t) end) as [d0|e];
      [|by repeat split].
    unfold Tuner._adjust_step. cbn. rewrite !lookup_insert_eq, <- Hbs, <- Hm, <- Htg.
    destruct (filter _ (items (deque_append d0 (s, int_truediv a d)))); cbn;
      rewrite ?lookup_insert_eq; by repeat split.
Qed.

Lemma agree_on_sym b t t' : agree_on b t t' -> agree_on b t' t.
Proof. intros (? & ? & ? & ? & ?). by repeat split. Qed.

Lemma agree_on_trans b t1 t2 t3 : agree_on b t1 t2 -> agree_on b t2 t3 -> agree_on b t1 t3.
Proof.
  intros (? & ? & ? & ? & ?) (? & ? & ? & ? & ?). repeat split; congruence.
Qed.

Lemma run_calls_for b cs t t' :
  agree_on b t t' -> agree_on b (Tuner.run t cs).1 (Tuner.run t' (calls_for b cs)).1.
Proof.
  revert t t'. induction cs as [|c cs IH]; intros t t' Hag; [done|].
  unfold calls_for. rewrite filter_cons. fold (calls_for b cs).
  destruct (decide (call_batch_size c = b)) as [Hc | Hc].
  - cbn [Tuner.run]. destruct (step_local t t' b c Hc Hag) as [_ Hag1].
    destruct (Tuner.step t c) as [t1 r1], (Tuner.step t' c) as [t1' r1'].
    specialize (IH t1 t1' Hag1).
    by destruct (Tuner.run t1 cs), (Tuner.run t1' (calls_for b cs)).
  - cbn [Tuner.run]. pose proof (step_other t b c Hc) as Hag1.
    destruct (Tuner.step t c) as [t1 r1]. cbn [fst] in Hag1.
    specialize (IH t1 t' (agree_on_trans _ _ _ _ (agree_on_sym _ _ _ Hag1) Hag)).
    by destruct (Tuner.run t1 cs).
Qed.
End tuner_edges.

(** X8.  For tokens of a size that the division accepts and a
    [window_size] of a size that [deque] takes, [update] of the tuner
    raises in one case only: some token was drafted, [window_size] is
    negative and the batch size has no window yet, so that
    [deque(maxlen=window_size)] is refused.  It then raises [ValueError]
    and leaves the tuner as it was; in every other case it returns, the
    [KeyError] of [_adjust_step] never arising. *)
Theorem update_raises_only_for_negative_window {F : Type} `{PyFloat F}
    (t : Tuner.SpeculativeTuner F) (b s a d : Z) :
  float_sized a -> ssize_sized (Tuner.window_size t) ->
  (d <> 0 /\ Tuner.window_size t < 0 /\ Tuner.history t !! b = None /\
   Tuner.update t b s a d = (t, Raise ValueError)) \/
  ((d = 0 \/ 0 <= Tuner.window_size t \/ is_Some (Tuner.history t !! b)) /\
   (Tuner.update t b s a d).2 = Ok tt).
Proof.
  intros _ _.
  destruct (Z.eq_dec d 0) as [Hd | Hd].
  { right. split; [by left | apply update_returns; by left]. }
  destruct (Z_lt_le_dec (Tuner.window_size t) 0) as [Hneg | Hpos].
  2: { right. split; [right; by left | apply update_returns; right; by left]. }
  destruct (Tuner.history t !! b) as [d0|] eqn:Hb.
  - right. assert (Hs : is_Some (Tuner.history t !! b)) by (rewrite Hb; by eexists).
    split; [by right; right | apply update_returns; by right; right].
  - left. repeat split; try done. by apply update_raises.
Qed.

Lemma update_raises_only_for_negative_window_witness :
  float_sized 3 /\ ssize_sized (-1) /\
  Tuner.update (Tuner.__init__ 5 (-1) (6 # 10)%Q) 1 5 3 10
  = (Tuner.__init__ 5 (-1) (6 # 10)%Q, Raise ValueError) /\
  (Tuner.update (Tuner.__init__ 5 2 (6 # 10)%Q) 1 5 3 10).2 = Ok tt.
Proof.
  assert (Hf : float_sized 3) by (vm_compute; reflexivity).
  assert (Hn : ssize_sized (-1))
    by (split; [apply Z.leb_le | apply Z.ltb_lt]; vm_compute; reflexivity).
  assert (Hp : ssize_sized 2)
    by (split; [apply Z.leb_le | apply Z.ltb_lt]; vm_compute; reflexivity).
  split; [exact Hf|]. split; [exact Hn|]. split.
  - destruct (update_raises_only_for_negative_window
                (Tuner.__init__ 5 (-1) (6 # 10)%Q) 1 5 3 10 Hf Hn)
      as [(_ & _ & _ & Hr) | [[Hd | [Hw | Hs]] _]].
    + exact Hr.
    + discriminate Hd.
    + exfalso. apply Hw. vm_compute. reflexivity.
    + destruct Hs as [d0 Hd0]. discriminate Hd0.
  - destruct (update_raises_only_for_negative_window
                (Tuner.__init__ 5 2 (6 # 10)%Q) 1 5 3 10 Hf Hp)
      as [(_ & Hw & _) | [_ Hr]].
    + exfalso. revert Hw. apply Z.le_ngt. vm_compute. intros Hc. discriminate Hc.
    + exact Hr.
Defined.



(** X10.  For [max_step >= 1], after every sequence of calls, one more
    call moves the suggestion of a batch size by one step at most. *)
Theorem suggestion_moves_one_step {F : Type} `{PyFloat F}
    (max_step window_size : Z) (target : F) (cs : list Tuner.call) (c : Tuner.call)
    (b : Z) :
  1 <= max_step ->
  let t := (Tuner.run (Tuner.__init__ max_step window_size target) cs).1 in
  Z.abs (Tuner.suggestion (Tuner.step t c).1 b - Tuner.suggestion t b) <= 1.
Proof.
  intros Hm t.
  assert (Hr : suggestions_in_range t).
  { subst t. apply (run_tuner_preserves suggestions_in_range step_in_range).
    by apply init_in_range. }
  destruct c as [b' | b' s a d]; cbn [Tuner.step].
  - destruct (get_step_frame t b') as (Hs & _).
    destruct (Tuner.get_step t b') as [t' r]. cbn [fst] in *. rewrite Hs. lia.
  - destruct (Z.eq_dec d 0) as [Hz | Hd]; [subst d; rewrite update_drafted_zero; cbn; lia|].
    pose proof (update_suggestion t b' s a d Hd) as (Hsug & _ & _ & Hother & _).
    cbn zeta in Hsug, Hother. destruct (Tuner.update t b' s a d) as [t' r]. cbn [fst] in *.
    destruct (decide (b = b')) as [-> | Hne].
    + rewrite Hsug. apply recomputed_near, Hr.
    + rewrite Hother by done. lia.
Qed.

Lemma suggestion_moves_one_step_witness :
  1 <= 5 /\
  Z.abs (Tuner.suggestion
           (Tuner.step (Tuner.run Inputs.tuner_5 Inputs.three_updates).1
              (Tuner.Update 1 4 0 7)).1 1
         - Tuner.suggestion (Tuner.run Inputs.tuner_5 Inputs.three_updates).1 1) <= 1.
Proof.
  assert (H5 : 1 <= 5) by (intros Hgt; discriminate Hgt).
  split; [exact H5|].
  apply (suggestion_moves_one_step 5 10 (6 # 10)%Q Inputs.three_updates
           (Tuner.Update 1 4 0 7) 1 H5).
Defined.

(** X11.  Batch sizes do not interfere: the suggestion and the window of
    a batch size after a sequence of calls are those after the calls of
    the sequence that are about this batch size, and the next call about
    it returns the same. *)
Theorem batch_sizes_are_independent {F : Type} `{PyFloat F}
    (t : Tuner.SpeculativeTuner F) (cs : list Tuner.call) (b : Z) :
  let t1 := (Tuner.run t cs).1 in
  let t2 := (Tuner.run t (calls_for b cs)).1 in
  Tuner.suggestion t1 b = Tuner.suggestion t2 b /\
  Tuner.window t1 b = Tuner.window t2 b /\
  forall c, call_batch_size c = b -> (Tuner.step t1 c).2 = (Tuner.step t2 c).2.
Proof.
  intros t1 t2.
  assert (Hag : agree_on b t1 t2).
  { apply run_calls_for. by repeat split. }
  split; [|split].
  - destruct Hag as (Hm & _ & _ & Hbs & _). unfold Tuner.suggestion. by rewrite Hm, Hbs.
  - destruct Hag as (_ & _ & _ & _ & Hh). unfold Tuner.window. by rewrite Hh.
  - intros c Hc. by apply (step_local t1 t2 b c Hc Hag).
Qed.

(** *** Errors and edges of the controller *)

Lemma py_range_nil lo hi : hi <= lo -> py_range lo hi = [].
Proof. intros Hle. unfold py_range. by replace (Z.to_nat (hi - lo)) with 0%nat by lia. Qed.

Lemma py_range_cons lo hi : lo < hi -> py_range lo hi = lo :: py_range (lo + 1) hi.
Proof.
  intros Hlt. unfold py_range.
  replace (Z.to_nat (hi - lo)) with (S (Z.to_nat (hi - (lo + 1)))) by lia.
  cbn [seq map]. f_equal; [lia|].
  rewrite <- seq_shift, map_map. apply map_ext. intros i. lia.
Qed.

(** [find] over a range returns the least number that passes the test. *)
Lemma find_py_range (f : Z -> bool) lo hi x :
  lo <= x < hi -> f x = true -> (forall y, lo <= y < x -> f y = false) ->
  find f (py_range lo hi) = Some x.
Proof.
  remember (Z.to_nat (x - lo)) as k eqn:Hk. revert lo Hk.
  induction k as [|k IH]; intros lo Hk Hx Hfx Hbefore.
  - assert (x = lo) by lia. subst x. rewrite py_range_cons by lia. cbn. by rewrite Hfx.
  - rewrite py_range_cons by lia. cbn. rewrite (Hbefore lo) by lia.
    apply IH; [lia | lia | done |]. intros y Hy. apply Hbefore. lia.
Qed.

Section controller_edges.
Context {F : Type} `{PyFloat F} {nan : F -> bool}.
Hypothesis laws : PyFloatLaws F nan.
Implicit Types (c : Controller.SpeculativeController F).

(** Without a candidate there is no warmup; exploration fails and
    exploitation falls back on [max_steps]. *)
Lemma decision_no_candidate c B u pick :
  Controller.step_candidates c = [] ->
  decision c B u pick =
    if flt u (Controller.exploration_rate c) then Raise IndexError
    else Ok (Controller.max_steps c).
Proof.
  intros Hc. unfold decision. rewrite Hc. cbn.
  by rewrite (minus_one_not_positive laws).
Qed.

(** One round of a warmup in order. *)
Lemma warm_round c r0 rs B n W q r :
  warm_at c B n W q r -> 0 <= q < n -> (r < W)%nat -> (W <= 20)%nat ->
  good_round B r0 ->
  exists c2,
    Controller.decisions c (r0 :: rs) =
      match Controller.decisions c2 rs with
      | Some ds => Some ((q + 1) :: ds)
      | None => None
      end /\
    warm_at c2 B n W q (S r).
Proof.
  intros (Hcands & Hwarm & Hbs & Hcap & Hdone & Hcur & Hlater) Hq Hr HW [HB Hpos].
  assert (Hfind : find (short (Controller.warmup_samples c) B (Controller.history c))
                    (Controller.step_candidates c) = Some (q + 1)).
  { rewrite Hcands, Hwarm. apply find_py_range; [lia | |].
    - unfold short. change (Controller.window_of (Controller.history c)) with (Controller.window c).
      rewrite Hcur. apply Z.ltb_lt. lia.
    - intros y Hy. unfold short.
      change (Controller.window_of (Controller.history c)) with (Controller.window c).
      rewrite Hdone by lia. apply Z.ltb_ge. lia. }
  destruct (round_appends laws c r0 rs B (q + 1) Hbs Hcap HB Hfind) as (h2 & Hd & Hcap2 & Hlen & Ho);
    [lia | done |].
  exists (Controller.set_history c h2). split; [done|].
  unfold warm_at. cbn [Controller.step_candidates Controller.warmup_samples
                       Controller.bs_bucket_size Controller.history Controller.set_history].
  do 4 (split; [done|]). unfold Controller.window. cbn [Controller.history Controller.set_history].
  split; [|split].
  - intros s Hs. rewrite Ho by (intros [= ?]; lia). by apply Hdone.
  - by rewrite Hlen, Hcur.
  - intros s Hs. rewrite Ho by (intros [= ?]; lia). by apply Hlater.
Qed.

Lemma warm_at_next c B n W q :
  warm_at c B n W q W -> warm_at c B n W (q + 1) 0.
Proof.
  intros (Hcands & Hwarm & Hbs & Hcap & Hdone & Hcur & Hlater).
  unfold warm_at. do 4 (split; [done|]). split; [|split].
  - intros s Hs. destruct (decide (s = q + 1)) as [-> | Hne]; [done | apply Hdone; lia].
  - apply Hlater. lia.
  - intros s Hs. apply Hlater. lia.
Qed.

(** The rounds from candidate [q + 1] with [r] records on. *)
Lemma warm_rounds B n W rs :
  (W <= 20)%nat ->
  forall c q r,
    warm_at c B n W q r -> 0 <= q < n -> (r < W)%nat ->
    Forall (good_round B) rs ->
    length rs = (W - r + Z.to_nat (n - q - 1) * W)%nat ->
    Controller.decisions c rs = Some (repeat (q + 1) (W - r) ++ warmup_order (q + 2) n W).
Proof.
  intros HW. induction rs as [|r0 rs IH]; intros c q r Hat Hq Hr Hgood Hlen.
  { cbn in Hlen. lia. }
  apply Forall_cons in Hgood as [Hr0 Hgood].
  destruct (warm_round c r0 rs B n W q r Hat Hq Hr HW Hr0) as (c2 & -> & Hat2).
  cbn [length] in Hlen.
  destruct (decide (S r = W)) as [HrW | HrW].
  - rewrite HrW in Hat2. apply warm_at_next in Hat2.
    replace (W - r)%nat with 1%nat by lia. cbn [repeat app].
    destruct (decide (q + 1 = n)) as [Hqn | Hqn].
    + replace (Z.to_nat (n - q - 1)) with 0%nat in Hlen by lia.
      assert (rs = []) by (destruct rs; [done | cbn in Hlen; lia]). subst rs. cbn.
      unfold warmup_order. by rewrite py_range_nil by lia.
    + replace (Z.to_nat (n - q - 1)) with (S (Z.to_nat (n - (q + 1) - 1))) in Hlen by lia.
      rewrite (IH c2 (q + 1) 0%nat Hat2); [|lia|lia|done|lia].
      unfold warmup_order. rewrite (py_range_cons (q + 2)) by lia. cbn [flat_map].
      rewrite Nat.sub_0_r. by replace (q + 1 + 1) with (q + 2) by lia;
        replace (q + 1 + 2) with (q + 2 + 1) by lia.
  - rewrite (IH c2 q (S r) Hat2); [|done|lia|done|lia].
    by replace (W - r)%nat with (S (W - S r)) by lia.
Qed.
End controller_edges.

(** X12.  A controller built for no step at all is not refused: for
    [initial_steps <= 0] there is no candidate, and after every sequence
    of calls [get_num_steps] raises [IndexError] when the draw is below
    the exploration rate ([random.choice] of an empty list) and returns
    [initial_steps] otherwise, a number below 1. *)
Theorem no_candidate_controller {F : Type} `{PyFloat F} (nan : F -> bool)
    (initial_steps tune_interval : Z) (ks : list (Controller.call F)) (b : Z) (u : F)
    (pick : nat) :
  PyFloatLaws F nan ->
  initial_steps <= 0 ->
  (Controller.get_num_steps
     (Controller.run (Controller.__init__ initial_steps tune_interval) ks).1 b u pick).2
  = if flt u (of_Q (10 # 100)) then Raise IndexError else Ok initial_steps.
Proof.
  intros laws Hn.
  destruct (run_controller_frame (Controller.__init__ initial_steps tune_interval) ks)
    as (h' & ->).
  rewrite (get_num_steps_decision _ _ _ _ (Controller.bucket_of 4 b)) by done.
  rewrite (decision_no_candidate laws); [done|].
  cbn. apply py_range_nil. lia.
Qed.

Lemma no_candidate_controller_witness :
  0 <= 0 /\
  (Controller.get_num_steps (Controller.__init__ 0 10) 3 (1 # 2)%Q 0).2 = Ok 0 /\
  (Controller.get_num_steps (Controller.__init__ 0 10) 3 (0 # 1)%Q 0).2 = Raise IndexError.
Proof.
  assert (H0 : 0 <= 0) by (intros Hgt; discriminate Hgt).
  split; [exact H0|]. split.
  - etrans;
      [exact (no_candidate_controller (fun _ => false) 0 10 [] 3 (1 # 2)%Q 0%nat Q_laws H0)|].
    vm_compute. reflexivity.
  - etrans;
      [exact (no_candidate_controller (fun _ => false) 0 10 [] 3 (0 # 1)%Q 0%nat Q_laws H0)|].
    vm_compute. reflexivity.
Defined.

(** X13.  A warmup that asks for more samples than a window holds never
    ends: with [warmup_samples] above 20 and one candidate or more, after
    every sequence of calls [get_num_steps] returns candidate 1, whatever
    the draws and the statistics. *)
Theorem warmup_beyond_capacity_never_ends {F : Type} `{PyFloat F}
    (initial_steps tune_interval warmup : Z) (ks : list (Controller.call F)) (b : Z)
    (u : F) (pick : nat) :
  1 <= initial_steps -> 20 < warmup ->
  (Controller.get_num_steps
     (Controller.run
        (Controller.set_warmup_samples (Controller.__init__ initial_steps tune_interval) warmup)
        ks).1 b u pick).2 = Ok 1.
Proof.
  intros Hn Hw.
  set (c0 := Controller.set_warmup_samples
               (Controller.__init__ initial_steps tune_interval) warmup).
  assert (Hlast : forall key,
    holds_last_20 (Controller.history (Controller.run c0 ks).1) key
      (controller_arrivals key ks)).
  { apply (run_holds_last_20 ks c0 []); [done| |].
    - intros k d. cbn. by rewrite lookup_empty.
    - intros k. unfold holds_last_20, Controller.window_of. cbn. by rewrite lookup_empty. }
  destruct (run_controller_frame c0 ks) as (h' & Hrun). rewrite Hrun in Hlast |- *.
  rewrite (get_num_steps_decision _ _ _ _ (Controller.bucket_of 4 b)) by done.
  unfold decision. cbn [Controller.step_candidates Controller.warmup_samples
                         Controller.history Controller.set_history c0
                         Controller.set_warmup_samples Controller.__init__].
  rewrite py_range_cons by lia. cbn [find].
  assert (Hshort : short warmup (Controller.bucket_of 4 b) h' 1 = true).
  { unfold short. specialize (Hlast (Controller.bucket_of 4 b, 1)).
    unfold holds_last_20 in Hlast. cbn in Hlast. rewrite Hlast, length_lastn.
    apply Z.ltb_lt. lia. }
  by rewrite Hshort.
Qed.

Lemma warmup_beyond_capacity_never_ends_witness :
  1 <= 3 /\ 20 < 21 /\
  (Controller.get_num_steps
     (Controller.run (Controller.set_warmup_samples (Controller.__init__ 3 10) 21)
        Inputs.warm_calls).1 8 (1 # 2)%Q 0).2 = Ok 1.
Proof.
  assert (H3 : 1 <= 3) by (intros Hgt; discriminate Hgt).
  assert (H21 : 20 < 21) by reflexivity.
  split; [exact H3|]. split; [exact H21|].
  apply (warmup_beyond_capacity_never_ends 3 10 21 Inputs.warm_calls 8 (1 # 2)%Q 0%nat H3 H21).
Defined.

(** X14.  The warmup visits the candidates in order: from a new controller
    with [warmup_samples] set between 1 and 20 (5 as constructed), rounds
    on one bucket, each a decision followed by an [update_with_step] that
    reports the decided step with a positive latency, decide candidate 1
    [warmup_samples] times, then candidate 2 as often, and so on to the
    last candidate, every call returning. *)
Theorem warmup_visits_candidates_in_order {F : Type} `{PyFloat F} (nan : F -> bool)
    (initial_steps tune_interval warmup B : Z) (rs : list (Controller.round F)) :
  PyFloatLaws F nan ->
  0 <= initial_steps -> 1 <= warmup <= 20 ->
  Forall (good_round B) rs ->
  length rs = (Z.to_nat initial_steps * Z.to_nat warmup)%nat ->
  Controller.decisions
    (Controller.set_warmup_samples (Controller.__init__ initial_steps tune_interval) warmup)
    rs
  = Some (warmup_order 1 initial_steps (Z.to_nat warmup)).
Proof.
  intros laws Hn Hw Hgood Hlen.
  destruct (decide (initial_steps = 0)) as [-> | Hn0].
  { cbn in Hlen. destruct rs; [|discriminate Hlen]. reflexivity. }
  rewrite (warm_rounds laws B initial_steps (Z.to_nat warmup) rs ltac:(lia) _ 0 0%nat).
  - unfold warmup_order. rewrite (py_range_cons 1) by lia. cbn [flat_map].
    by rewrite Nat.sub_0_r.
  - unfold warm_at. cbn. repeat split; try done; try lia.
  - lia.
  - lia.
  - done.
  - rewrite Hlen. replace (Z.to_nat (initial_steps - 0 - 1)) with (Z.to_nat initial_steps - 1)%nat
      by lia.
    assert (1 <= Z.to_nat initial_steps)%nat by lia.
    destruct (Z.to_nat initial_steps); [lia|]. cbn. lia.
Qed.

Lemma ten_rounds_4_good : Forall (good_round 4) Inputs.ten_rounds_4.
Proof.
  repeat (apply Forall_cons; split; [split; vm_compute; reflexivity|]). apply Forall_nil_2.
Qed.

Lemma warmup_visits_candidates_in_order_witness :
  0 <= 2 /\ 1 <= 5 <= 20 /\
  Controller.decisions (Controller.__init__ 2 10) Inputs.ten_rounds_4
  = Some [1; 1; 1; 1; 1; 2; 2; 2; 2; 2].
Proof.
  assert (H2 : 0 <= 2) by (intros Hgt; discriminate Hgt).
  assert (H5 : 1 <= 5 <= 20)
    by (split; intros Hgt; discriminate Hgt).
  split; [exact H2|]. split; [exact H5|].
  apply (warmup_visits_candidates_in_order (fun _ => false) 2 10 5 4 Inputs.ten_rounds_4
           Q_laws H2 H5 ten_rounds_4_good).
  vm_compute. reflexivity.
Defined.

Lemma lookup_py_range lo hi (i : nat) :
  (i < Z.to_nat (hi - lo))%nat -> py_range lo hi !! i = Some (lo + Z.of_nat i).
Proof.
  revert lo. induction i as [|i IH]; intros lo Hi; rewrite py_range_cons by lia; cbn.
  - f_equal. lia.
  - rewrite IH by lia. f_equal. lia.
Qed.

Lemma length_py_range lo hi : length (py_range lo hi) = Z.to_nat (hi - lo).
Proof. unfold py_range. by rewrite length_map, length_seq. Qed.

Section controller_buckets.
Context {F : Type} `{PyFloat F}.
Implicit Types (c : Controller.SpeculativeController F).

Lemma arrivals_reports_of B s (ks : list (Controller.call F)) :
  controller_arrivals (B, s) (reports_of B ks) = controller_arrivals (B, s) ks.
Proof.
  induction ks as [|k ks IH]; [done|].
  unfold reports_of. rewrite filter_cons. fold (reports_of B ks).
  change (controller_arrivals (B, s) (k :: ks))
    with (controller_arrival (B, s) k ++ controller_arrivals (B, s) ks).
  destruct (decide (is_report_of B k = true)) as [Hk | Hk].
  - change (controller_arrivals (B, s) (k :: reports_of B ks))
      with (controller_arrival (B, s) k ++ controller_arrivals (B, s) (reports_of B ks)).
    by rewrite IH.
  - rewrite IH. destruct k as [b u pick | b a l | b n a l u]; cbn; [done | done |].
    cbn in Hk. rewrite bool_decide_eq_false_2; [done|].
    intros [= Hb _]. apply Hk. by apply bool_decide_eq_true_2.
Qed.

(** The decision for a bucket reads the settings and the windows of the
    bucket. *)
Lemma decision_ext c c' B u pick :
  Controller.step_candidates c = Controller.step_candidates c' ->
  Controller.warmup_samples c = Controller.warmup_samples c' ->
  Controller.exploration_rate c = Controller.exploration_rate c' ->
  Controller.max_steps c = Controller.max_steps c' ->
  (forall s, Controller.window c (B, s) = Controller.window c' (B, s)) ->
  decision c B u pick = decision c' B u pick.
Proof.
  intros Hc Hw He Hm Hwin. unfold Controller.window in Hwin.
  unfold decision. rewrite <- Hc, <- Hw, <- He, <- Hm.
  rewrite (find_pointwise _ (short (Controller.warmup_samples c) B (Controller.history c'))).
  2: { intros s. unfold short. by rewrite (Hwin s). }
  rewrite (best_from_ext (tps_of c B) (tps_of c' B)); [done|].
  intros s. unfold tps_of, tps_in. by rewrite (Hwin s).
Qed.
End controller_buckets.

(** X15.  Buckets do not interfere and decisions leave no trace: after a
    sequence of calls on a new controller, what [get_num_steps] returns
    for a batch size is what it returns after the [update_with_step]
    calls of the sequence that are about the bucket of this batch size,
    the other calls left out. *)
Theorem decision_reads_reports_of_bucket {F : Type} `{PyFloat F}
    (initial_steps tune_interval : Z) (ks : list (Controller.call F)) (b : Z) (u : F)
    (pick : nat) :
  (Controller.get_num_steps
     (Controller.run (Controller.__init__ initial_steps tune_interval) ks).1 b u pick).2
  = (Controller.get_num_steps
       (Controller.run (Controller.__init__ initial_steps tune_interval)
          (reports_of (Controller.bucket_of 4 b) ks)).1 b u pick).2.
Proof.
  set (B := Controller.bucket_of 4 b).
  pose proof (fun s => controller_window_lastn initial_steps tune_interval ks (B, s)) as Hw1.
  pose proof (fun s => controller_window_lastn initial_steps tune_interval
                         (reports_of B ks) (B, s)) as Hw2.
  destruct (run_controller_frame (Controller.__init__ initial_steps tune_interval) ks)
    as (h1 & Hr1).
  destruct (run_controller_frame (Controller.__init__ initial_steps tune_interval)
              (reports_of B ks)) as (h2 & Hr2).
  rewrite Hr1 in Hw1 |- *. rewrite Hr2 in Hw2 |- *.
  rewrite !(get_num_steps_decision _ _ _ _ B) by done.
  apply decision_ext; try done.
  intros s. by rewrite Hw1, Hw2, arrivals_reports_of.
Qed.

(** X16.  Exploration reads no statistics: on a controller with
    candidates 1 to [n], [n >= 1], past the warmup of the bucket, a draw
    below the exploration rate makes [get_num_steps] return the candidate
    that [random.choice] indexes, [1 + pick mod n]. *)
Theorem exploration_returns_indexed_candidate {F : Type} `{PyFloat F}
    (c : Controller.SpeculativeController F) (n b : Z) (u : F) (pick : nat) :
  configured c n -> 1 <= n ->
  warmed_up c (Controller.bucket_of (Controller.bs_bucket_size c) b) ->
  flt u (Controller.exploration_rate c) = true ->
  (Controller.get_num_steps c b u pick).2 = Ok (1 + Z.of_nat (pick mod Z.to_nat n)).
Proof.
  intros (Hmax & Hcands & Hbs) Hn Hwarm Hu.
  rewrite (get_num_steps_decision c b u pick _ (bucket_ok c b Hbs)).
  unfold decision. rewrite warmed_up_find, Hu by done.
  unfold Controller.random_choice. rewrite Hcands, length_py_range.
  replace (Z.to_nat (n + 1 - 1)) with (Z.to_nat n) by lia.
  rewrite lookup_py_range; [done|].
  replace (Z.to_nat (n + 1 - 1)) with (Z.to_nat n) by lia.
  apply Nat.mod_upper_bound. lia.
Qed.

Lemma reported_controller_warmed_up : warmed_up Inputs.reported_controller 8.
Proof.
  intros s Hs. change (Controller.step_candidates Inputs.reported_controller)
    with (Controller.step_candidates Inputs.warm_controller) in Hs.
  rewrite warm_controller_candidates in Hs.
  repeat (apply elem_of_cons in Hs as [-> | Hs]);
    [apply Z.leb_le; vm_compute; reflexivity ..|].
  exfalso. by eapply elem_of_nil.
Qed.

Lemma exploration_returns_indexed_candidate_witness :
  1 <= 3 /\
  (Controller.get_num_steps Inputs.reported_controller 8 (1 # 20)%Q 7).2 = Ok 2.
Proof.
  assert (H3 : 1 <= 3) by (intros Hgt; discriminate Hgt).
  split; [exact H3|].
  etrans; [apply (exploration_returns_indexed_candidate Inputs.reported_controller 3 8
                    (1 # 20)%Q 7%nat)|].
  - split; [vm_compute; reflexivity|]. split; [vm_compute; reflexivity|].
    vm_compute. intros Heq. discriminate Heq.
  - exact H3.
  - apply reported_controller_warmed_up.
  - vm_compute. reflexivity.
  - vm_compute. reflexivity.
Defined.
